(** * compose-store index generator: a shallow embedding of
      [src/generator/generate_index.py] and the properties of its
      incremental fetch-and-merge loop.

    The script reads a list of package descriptors, asks the git provider
    for the tags of every package (conditionally, through an ETag cache),
    keeps the tags that look like [vX.Y.Z], fetches [metadata.json] for
    the tags the index does not hold yet, and writes the index back.

    Python dictionaries are finite maps ([gmap]), the two loops are folds
    that stop at the first [sys.exit] or uncaught exception, and the
    network is an oracle that sees the history of the calls made so far. *)

From Stdlib Require Import ZArith Ascii.
From stdpp Require Import gmap strings list fin_maps.

Set Warnings "-register-all".
#[local] Open Scope Z_scope.

(** ** Regular expressions, as far as [VERSION_REGEX] needs them *)

Module Re.

(** A set of characters: [\d] or one literal character.  Strings are
    sequences of code points below 256; there [\d] is exactly [0-9]. *)
Inductive charset :=
  | Digit
  | Char (c : ascii).

Definition is_digit (c : ascii) : bool :=
  (Ascii.leb "0" c && Ascii.leb c "9")%bool.

Definition in_charset (cs : charset) (c : ascii) : bool :=
  match cs with
  | Digit => is_digit c
  | Char d => Ascii.eqb c d
  end.

(** The four kinds of item the pattern is made of: [^], [$], one
    character of a set, and a set followed by [+]. *)
Inductive node :=
  | Bol
  | Eol
  | One (cs : charset)
  | Plus (cs : charset).

Definition pattern := list node.

Definition newline : ascii := ascii_of_nat 10.

(** Python's [$] without [re.MULTILINE]: the end of the string, or the
    position just before a newline that ends the string. *)
Definition at_end (s : string) : bool :=
  match s with
  | EmptyString => true
  | String c EmptyString => Ascii.eqb c newline
  | _ => false
  end.

(** [cs+] followed by the rest of the pattern, [rest]: one character of
    [cs], then either more of them (tried first, the operator is greedy)
    or the rest. *)
Fixpoint plus_loop (cs : charset) (rest : string → bool) (s : string) : bool :=
  match s with
  | String c s' => in_charset cs c && (plus_loop cs rest s' || rest s')
  | EmptyString => false
  end.

(** Backtracking match of [pat] against what is left of the subject;
    [at_start] tells whether nothing has been consumed yet.  As for
    [re.match], the pattern need not reach the end of the subject. *)
Fixpoint match_here (pat : pattern) (at_start : bool) (s : string) : bool :=
  match pat with
  | [] => true
  | Bol :: pat' => at_start && match_here pat' at_start s
  | Eol :: pat' => at_end s && match_here pat' at_start s
  | One cs :: pat' =>
      match s with
      | String c s' => in_charset cs c && match_here pat' false s'
      | EmptyString => false
      end
  | Plus cs :: pat' => plus_loop cs (match_here pat' false) s
  end.

(** [re.match(pattern, s)] read as a truth value. *)
Definition re_match (pat : pattern) (s : string) : bool :=
  match_here pat true s.

End Re.

(** [VERSION_REGEX = "^v[\d]+\.[\d]+\.[\d]+$"] *)
Definition VERSION_REGEX : Re.pattern :=
  [Re.Bol; Re.One (Re.Char "v"); Re.Plus Re.Digit;
   Re.One (Re.Char "."); Re.Plus Re.Digit;
   Re.One (Re.Char "."); Re.Plus Re.Digit; Re.Eol].

(** The test of line 129, [re.match(VERSION_REGEX, tag)]. *)
Definition is_valid_version (tag : string) : bool :=
  Re.re_match VERSION_REGEX tag.
Arguments is_valid_version : simpl never.

(** The version filter in the words of the specification: a non-negative
    decimal integer is a non-empty run of digits, and a version is [v]
    followed by three of them separated by dots. *)
Fixpoint all_digits (s : string) : bool :=
  match s with
  | EmptyString => true
  | String c s' => Re.is_digit c && all_digits s'
  end.

Definition decimal (s : string) : bool :=
  match s with
  | EmptyString => false
  | String _ _ => all_digits s
  end.

Definition version_string (a b c : string) : string :=
  "v" +:+ a +:+ "." +:+ b +:+ "." +:+ c.

Definition is_version (tag : string) : Prop :=
  ∃ a b c : string,
    decimal a = true ∧ decimal b = true ∧ decimal c = true ∧
    tag = version_string a b c.

Definition nl : string := String Re.newline EmptyString.

(** ** Python values the script handles *)

(** A decoded JSON document.  Objects are dictionaries with distinct
    keys; what the script does with a number does not depend on its
    value. *)
Inductive json :=
  | JNull
  | JBool (b : bool)
  | JNum (n : Z)
  | JStr (s : string)
  | JArr (items : list json)
  | JObj (fields : gmap string json).

(** The exceptions that can escape [main]. *)
Inductive exn :=
  | KeyError
  | TypeError
  | AttributeError
  | JSONDecodeError
  | RequestException.

(** [len(v)] *)
Definition py_len (v : json) : exn + nat :=
  match v with
  | JStr s => inr (String.length s)
  | JArr items => inr (length items)
  | JObj fields => inr (size fields)
  | _ => inl TypeError
  end.

(** [v[k]] for a string key [k]: only a dictionary can be subscripted by
    a string. *)
Definition py_getitem (v : json) (k : string) : exn + json :=
  match v with
  | JObj fields =>
      match fields !! k with
      | Some x => inr x
      | None => inl KeyError
      end
  | _ => inl TypeError
  end.

Definition is_str (k : string) (v : json) : bool :=
  match v with
  | JStr s => String.eqb s k
  | _ => false
  end.

Definition is_substring (k s : string) : bool :=
  match String.index 0 k s with
  | Some _ => true
  | None => false
  end.

(** [k in v] for a string [k]: key of a dictionary, element of a list,
    substring of a string. *)
Definition py_contains (k : string) (v : json) : exn + bool :=
  match v with
  | JObj fields => inr (bool_decide (is_Some (fields !! k)))
  | JArr items => inr (existsb (is_str k) items)
  | JStr s => inr (is_substring k s)
  | _ => inl TypeError
  end.

Fixpoint chars (s : string) : list json :=
  match s with
  | EmptyString => []
  | String c s' => JStr (String c EmptyString) :: chars s'
  end.

(** [for b in v]: the elements of a list, the keys of a dictionary (every
    one a string, their order plays no role below), the characters of a
    string. *)
Definition py_iter (v : json) : exn + list json :=
  match v with
  | JArr items => inr items
  | JObj fields => inr ((λ kv : string * json, JStr kv.1) <$> map_to_list fields)
  | JStr s => inr (chars s)
  | _ => inl TypeError
  end.

(** [s.split(sep)] for a one-character separator: never empty. *)
Fixpoint split (sep : ascii) (s : string) : list string :=
  match s with
  | EmptyString => [EmptyString]
  | String c s' =>
      if Ascii.eqb c sep then EmptyString :: split sep s'
      else match split sep s' with
           | x :: xs => String c x :: xs
           | [] => [String c EmptyString]
           end
  end.

(** [b['ref'].split('/')[-1]] *)
Definition ref_tag (b : json) : exn + string :=
  match py_getitem b "ref" with
  | inl e => inl e
  | inr (JStr s) => inr (List.last (split "/" s) EmptyString)
  | inr _ => inl AttributeError
  end.

(** A list comprehension stops at the first element that raises. *)
Fixpoint comprehension {A B : Type} (f : A → exn + B) (l : list A) : exn + list B :=
  match l with
  | [] => inr []
  | x :: l' =>
      match f x with
      | inl e => inl e
      | inr y =>
          match comprehension f l' with
          | inl e => inl e
          | inr ys => inr (y :: ys)
          end
      end
  end.

(** Line 115: [[b['ref'].split('/')[-1] for b in content]]. *)
Definition tags_of_content (content : json) : exn + list string :=
  match py_iter content with
  | inl e => inl e
  | inr items => comprehension ref_tag items
  end.

(** Header values are strings, the script compares one with the integer
    [0]: equality of a [str] and an [int] is [False]. *)
Inductive pyval :=
  | PyStr (s : string)
  | PyInt (n : Z).

Definition py_eq (a b : pyval) : bool :=
  match a, b with
  | PyStr s, PyStr t => String.eqb s t
  | PyInt m, PyInt n => (m =? n)
  | _, _ => false
  end.

(** ** Data model *)

(** One entry of the packages file; [pkg_id] is its ['id']. *)
Record package := {
  pkg_id : string;
  git_provider : string;
  git_owner : string;
  git_repository : string;
  icon : string
}.

(** [cache[id] = {'ETag': ..., 'Content': ...}].  The cache is a
    [defaultdict]: reading an id it does not hold puts [None] under that
    id.  Such an entry is overwritten (status 200) or ends the run (exit,
    or [None['Content']] at line 115) before the cache is read or dumped
    again, so an id without entry stands for it. *)
Record cache_entry := {
  ETag : string;
  Content : json
}.

(** [version_info] of lines 164-171. *)
Record version_info := {
  dependencies : json;
  compatibility : json
}.

Record git_info := {
  provider : string;
  owner : string;
  repository : string
}.

(** A value of [index['packages']]: the header of lines 118-126, to which
    line 159 adds ['name'] and ['description']. *)
Record package_record := {
  git : git_info;
  versions : gmap string version_info;
  rec_icon : string;
  name : option json;
  description : option json
}.

Record request := {
  url : string;
  req_headers : gmap string string
}.

(** What [requests.get] hands back: [json_body] is the value of
    [response.json()], [None] when the body does not decode and the call
    raises.  Header names are written as the script writes them. *)
Record response := {
  status_code : Z;
  headers : gmap string string;
  json_body : option json
}.

(** The two places that call the provider. *)
Inductive call :=
  | ListTags (p : package)
  | FetchMetadata (p : package) (tag : string).

(** One call of [requests.get]; no response when the call raised. *)
Record event := {
  ev_call : call;
  ev_request : request;
  ev_response : option response
}.

(** The network answers a request knowing every call made before; it
    gives no response when [requests.get] raises (timeout, refused
    connection). *)
Definition network := list event → request → option response.

(** A file: absent, present but not decodable, or holding a value. *)
Inductive file (A : Type) :=
  | Missing
  | Unreadable
  | Holds (a : A).
Arguments Missing {A}.
Arguments Unreadable {A}.
Arguments Holds {A} a.

Record disk := {
  cache_json : file (gmap string cache_entry);
  index_json : file (gmap string package_record)
}.

(** The variables of [main] that the loops change, the cache file (it is
    rewritten inside the loop) and the calls made so far. *)
Record state := {
  cache : gmap string cache_entry;
  index : gmap string package_record;
  hits : nat;
  misses : nat;
  num_packages : nat;
  cache_file : file (gmap string cache_entry);
  trace : list event
}.

(** Where a piece of the script ends: it falls through, calls
    [sys.exit], or lets an exception escape. *)
Inductive result :=
  | Ok (st : state)
  | Exit (code : Z) (st : state)
  | Raise (e : exn) (st : state).

Definition final (r : result) : state :=
  match r with
  | Ok st | Exit _ st | Raise _ st => st
  end.

(** The exit status the caller of the process sees. *)
Definition exit_code (r : result) : Z :=
  match r with
  | Ok _ => 0
  | Exit code _ => code
  | Raise _ _ => 1
  end.

(** ** Constants of the script *)

(** [GIT_PROVIDER_TO_TAGS_URL[provider]] with the fields of the package
    substituted by [format]: no entry for an unregistered provider. *)
Definition GIT_PROVIDER_TO_TAGS_URL (host : string) : option (package → string) :=
  if String.eqb host "github.com" then
    Some (λ p, "https://api.github.com/repos/" +:+ git_owner p +:+ "/"
               +:+ git_repository p +:+ "/git/refs/tags")
  else if String.eqb host "bitbucket.com" then
    Some (λ _, "NOT_SUPPORTED_YET")
  else None.

(** [GIT_PROVIDER_TO_RAW_URL[provider]] with [tag], [object] and the fields
    of the package substituted by [format]. *)
Definition GIT_PROVIDER_TO_RAW_URL (host : string)
    : option (package → string → string → string) :=
  if String.eqb host "github.com" then
    Some (λ p tag object, "https://raw.githubusercontent.com/" +:+ git_owner p
               +:+ "/" +:+ git_repository p +:+ "/" +:+ tag +:+ "/" +:+ object)
  else if String.eqb host "bitbucket.com" then
    Some (λ _ _ _, "NOT_SUPPORTED_YET")
  else None.

Definition NO_COMPATIBILITY_DATA : json :=
  JObj {[ "compose" :=
            JObj (<["minimum" := JStr "v0.0.0"]> {[ "maximum" := JStr "v0.9.9" ]}) ]}.

(** ** Assignments to the variables of [main] *)

Definition set_cache (c : gmap string cache_entry) (st : state) : state :=
  {| cache := c; index := index st; hits := hits st; misses := misses st;
     num_packages := num_packages st; cache_file := cache_file st;
     trace := trace st |}.

Definition set_index (i : gmap string package_record) (st : state) : state :=
  {| cache := cache st; index := i; hits := hits st; misses := misses st;
     num_packages := num_packages st; cache_file := cache_file st;
     trace := trace st |}.

(** [stats['cache']['hits'] += 1] *)
Definition add_hit (st : state) : state :=
  {| cache := cache st; index := index st; hits := S (hits st);
     misses := misses st; num_packages := num_packages st;
     cache_file := cache_file st; trace := trace st |}.

(** [stats['cache']['misses'] += 1] *)
Definition add_miss (st : state) : state :=
  {| cache := cache st; index := index st; hits := hits st;
     misses := S (misses st); num_packages := num_packages st;
     cache_file := cache_file st; trace := trace st |}.

(** [stats['num_packages'] += 1] *)
Definition add_package (st : state) : state :=
  {| cache := cache st; index := index st; hits := hits st;
     misses := misses st; num_packages := S (num_packages st);
     cache_file := cache_file st; trace := trace st |}.

(** [json.dump(cache, fout, ...)] into the cache file. *)
Definition dump_cache (st : state) : state :=
  {| cache := cache st; index := index st; hits := hits st;
     misses := misses st; num_packages := num_packages st;
     cache_file := Holds (cache st); trace := trace st |}.

Definition log_call (ev : event) (st : state) : state :=
  {| cache := cache st; index := index st; hits := hits st;
     misses := misses st; num_packages := num_packages st;
     cache_file := cache_file st; trace := trace st ++ [ev] |}.

Definition and_then (r : result) (k : state → result) : result :=
  match r with
  | Ok st => k st
  | _ => r
  end.

(** A [for] loop whose body may leave [main]; a body that ends in [Ok]
    has reached its end or a [continue]. *)
Fixpoint for_each {A : Type} (body : state → A → result) (l : list A)
    (st : state) : result :=
  match l with
  | [] => Ok st
  | x :: l' => and_then (body st x) (for_each body l')
  end.

(** ** The network call *)

(** [requests] only knows the two http schemes; any other URL raises
    before anything is sent. *)
Definition supported_url (u : string) : bool :=
  String.prefix "https://" u || String.prefix "http://" u.

(** [requests.get(url, headers=..., timeout=10)], recorded in the trace. *)
Definition requests_get (net : network) (c : call) (u : string)
    (hdrs : gmap string string) (st : state) : option response * state :=
  let req := {| url := u; req_headers := hdrs |} in
  let resp := if supported_url u then net (trace st) req else None in
  (resp, log_call {| ev_call := c; ev_request := req; ev_response := resp |} st).

(** ** The body of the inner loop (lines 129-173) *)

(** Lines 168-171. *)
Definition compatibility_of (metadata : json) : exn + json :=
  match py_contains "compatibility" metadata with
  | inl e => inl e
  | inr false => inr NO_COMPATIBILITY_DATA
  | inr true =>
      match py_getitem metadata "compatibility" with
      | inl e => inl e
      | inr declared =>
          match py_contains "compose" declared with
          | inl e => inl e
          | inr true => inr declared
          | inr false => inr NO_COMPATIBILITY_DATA
          end
      end
  end.

Definition set_name_description (n d : json) (r : package_record) : package_record :=
  {| git := git r; versions := versions r; rec_icon := rec_icon r;
     name := Some n; description := Some d |}.

Definition set_version (tag : string) (v : version_info) (r : package_record)
    : package_record :=
  {| git := git r; versions := <[tag := v]> (versions r); rec_icon := rec_icon r;
     name := name r; description := description r |}.

(** Lines 159-173: what is done with a decoded, non-empty [metadata]. *)
Definition record_version (p : package) (tag : string) (metadata : json)
    (st : state) : result :=
  match index st !! pkg_id p with
  | None => Raise KeyError st
  | Some r =>
  match py_getitem metadata "name" with
  | inl e => Raise e st
  | inr n =>
  match py_getitem metadata "description" with
  | inl e => Raise e st
  | inr d =>
  let r := set_name_description n d r in
  let st := set_index (<[pkg_id p := r]> (index st)) st in
  match py_getitem metadata "dependencies" with
  | inl e => Raise e st
  | inr deps =>
  match py_getitem deps "packages" with
  | inl e => Raise e st
  | inr dep_packages =>
  match compatibility_of metadata with
  | inl e => Raise e st
  | inr compat =>
  let info := {| dependencies := dep_packages; compatibility := compat |} in
  Ok (set_index (<[pkg_id p := set_version tag info r]> (index st)) st)
  end end end end end end.

(** Lines 150-153: the decoded body on status 200, an empty dictionary
    otherwise. *)
Definition metadata_of (r : response) : option json :=
  if status_code r =? 200 then json_body r else Some (JObj ∅).

Definition process_tag (net : network) (p : package) (st : state)
    (tag : string) : result :=
  if negb (is_valid_version tag) then Ok st
  else
  match index st !! pkg_id p with
  | None => Raise KeyError st
  | Some r =>
  if bool_decide (is_Some (versions r !! tag)) then Ok (add_hit st)
  else
  let st := add_miss st in
  match GIT_PROVIDER_TO_RAW_URL (git_provider p) with
  | None => Raise KeyError st
  | Some template =>
  let metadata_url := template p tag "metadata.json" in
  let (response, st) := requests_get net (FetchMetadata p tag) metadata_url ∅ st in
  match response with
  | None => Raise RequestException st
  | Some response =>
  if status_code response =? 404 then Ok st
  else
  match metadata_of response with
  | None => Raise JSONDecodeError st
  | Some metadata =>
  match py_len metadata with
  | inl e => Raise e st
  | inr O => Ok st
  | inr (S _) => record_version p tag metadata st
  end end end end end.

(** ** The body of the outer loop (lines 80-175) *)

(** Line 87: the conditional header, sent when the cache has an entry. *)
Definition conditional_headers (cached_repo : option cache_entry)
    : gmap string string :=
  match cached_repo with
  | Some entry => {[ "If-None-Match" := ETag entry ]}
  | None => ∅
  end.

(** Line 91: [status_code == 401 and headers['X-RateLimit-Remaining'] == 0];
    the header is read only when the status is 401. *)
Definition quota_exhausted (r : response) : exn + bool :=
  if status_code r =? 401 then
    match headers r !! "X-RateLimit-Remaining" with
    | None => inl KeyError
    | Some remaining => inr (py_eq (PyStr remaining) (PyInt 0))
    end
  else inr false.

(** Lines 99-109. *)
Definition update_cache (no_cache : bool) (p : package) (r : response)
    (st : state) : result :=
  if status_code r =? 200 then
    let st := add_miss st in
    match headers r !! "ETag" with
    | None => Raise KeyError st
    | Some etag =>
        match json_body r with
        | None => Raise JSONDecodeError st
        | Some content =>
            let entry := {| ETag := etag; Content := content |} in
            let st := set_cache (<[pkg_id p := entry]> (cache st)) st in
            Ok (if no_cache then st else dump_cache st)
        end
    end
  else Ok st.

(** Lines 117-126. *)
Definition header_of (p : package) : package_record :=
  {| git := {| provider := git_provider p; owner := git_owner p;
               repository := git_repository p |};
     versions := ∅;
     rec_icon := icon p;
     name := None;
     description := None |}.

Definition add_header (p : package) (st : state) : state :=
  match index st !! pkg_id p with
  | Some _ => st
  | None => set_index (<[pkg_id p := header_of p]> (index st)) st
  end.

Definition process_package (net : network) (no_cache : bool) (st : state)
    (p : package) : result :=
  let cached_repo := cache st !! pkg_id p in
  match GIT_PROVIDER_TO_TAGS_URL (git_provider p) with
  | None => Raise KeyError st
  | Some template =>
  let tags_url := template p in
  let (response, st) :=
    requests_get net (ListTags p) tags_url (conditional_headers cached_repo) st in
  match response with
  | None => Raise RequestException st
  | Some response =>
  match quota_exhausted response with
  | inl e => Raise e st
  | inr true => Exit 1 st
  | inr false =>
  if status_code response =? 404 then Exit 2 st
  else
  and_then (update_cache no_cache p response st) (λ st,
  let st := if status_code response =? 304 then add_hit st else st in
  match cache st !! pkg_id p with
  | None => Raise TypeError st
  | Some entry =>
  match tags_of_content (Content entry) with
  | inl e => Raise e st
  | inr tags =>
  let st := add_header p st in
  and_then (for_each (process_tag net p) tags st) (λ st,
  Ok (add_package st))
  end end)
  end end end.

(** ** [main] *)

Definition load_cache (f : file (gmap string cache_entry)) : gmap string cache_entry :=
  match f with
  | Holds c => c
  | _ => ∅
  end.

(** Lines 54-77: the state the outer loop starts from; reading an index
    file that does not decode raises. *)
Definition initial_state (no_cache : bool) (d : disk) : exn + state :=
  let c := if no_cache then ∅ else load_cache (cache_json d) in
  let start i :=
    {| cache := c; index := i; hits := O; misses := O; num_packages := O;
       cache_file := cache_json d; trace := [] |} in
  if no_cache then inr (start ∅)
  else match index_json d with
       | Missing => inr (start ∅)
       | Unreadable => inl JSONDecodeError
       | Holds i => inr (start i)
       end.

(** The files after the process has ended: the cache file as the loop
    left it, the index file rewritten only when line 177 is reached. *)
Definition disk_after (d : disk) (r : result) : disk :=
  {| cache_json := cache_file (final r);
     index_json := match r with
                   | Ok st => Holds (index st)
                   | _ => index_json d
                   end |}.

Definition run_packages (net : network) (no_cache : bool)
    (packages : list package) (st : state) : result :=
  for_each (process_package net no_cache) packages st.

Definition empty_state (d : disk) : state :=
  {| cache := ∅; index := ∅; hits := O; misses := O; num_packages := O;
     cache_file := cache_json d; trace := [] |}.

Definition main (net : network) (no_cache : bool) (packages : list package)
    (d : disk) : result * disk :=
  match initial_state no_cache d with
  | inl e => (Raise e (empty_state d), d)
  | inr st =>
      let r := run_packages net no_cache packages st in
      (r, disk_after d r)
  end.

(** ** Vocabulary of the properties *)

(** The Version Record the index holds for a tag of a package, if any
    (line 134 asks whether there is one). *)
Definition version_record (i : gmap string package_record) (id tag : string)
    : option version_info :=
  r ← i !! id; versions r !! tag.
Arguments version_record : simpl never.

(** The responses to a metadata fetch after which the loop goes on to the
    next tag with the index untouched: status 404, or a [metadata] of
    length 0 (any status other than 200, or an empty document). *)
Definition skips (r : response) : bool :=
  (status_code r =? 404) ||
  match metadata_of r with
  | Some metadata =>
      match py_len metadata with
      | inr O => true
      | _ => false
      end
  | None => false
  end.

(** A metadata document without a [compatibility] field, or whose
    [compatibility] has no [compose] entry. *)
Definition no_compose_entry (metadata : json) : Prop :=
  py_contains "compatibility" metadata = inr false ∨
  ∃ declared, py_getitem metadata "compatibility" = inr declared ∧
              py_contains "compose" declared = inr false.

(** The call that line 144 makes for [tag] from state [st]. *)
Definition metadata_call (net : network) (p : package) (tag : string)
    (st : state) (ev : event) : Prop :=
  ∃ template, GIT_PROVIDER_TO_RAW_URL (git_provider p) = Some template ∧
    ev = {| ev_call := FetchMetadata p tag;
            ev_request := {| url := template p tag "metadata.json";
                             req_headers := ∅ |};
            ev_response :=
              (requests_get net (FetchMetadata p tag)
                 (template p tag "metadata.json") ∅ (add_miss st)).1 |}.

(** The ways one pass through the inner loop body reaches its end. *)
Inductive tag_step (net : network) (p : package) (st : state) (tag : string)
    : state → Prop :=
  | tag_ignored :
      is_valid_version tag = false →
      tag_step net p st tag st
  | tag_cached r :
      is_valid_version tag = true →
      index st !! pkg_id p = Some r →
      is_Some (versions r !! tag) →
      tag_step net p st tag (add_hit st)
  | tag_skipped r ev resp :
      is_valid_version tag = true →
      index st !! pkg_id p = Some r →
      versions r !! tag = None →
      metadata_call net p tag st ev →
      ev_response ev = Some resp →
      skips resp = true →
      tag_step net p st tag (log_call ev (add_miss st))
  | tag_recorded r ev resp metadata n d deps dep_packages compat :
      is_valid_version tag = true →
      index st !! pkg_id p = Some r →
      versions r !! tag = None →
      metadata_call net p tag st ev →
      ev_response ev = Some resp →
      skips resp = false →
      status_code resp = 200 →
      json_body resp = Some metadata →
      py_getitem metadata "name" = inr n →
      py_getitem metadata "description" = inr d →
      py_getitem metadata "dependencies" = inr deps →
      py_getitem deps "packages" = inr dep_packages →
      compatibility_of metadata = inr compat →
      tag_step net p st tag
        (set_index
           (<[pkg_id p :=
                {| git := git r;
                   versions :=
                     <[tag := {| dependencies := dep_packages;
                                 compatibility := compat |}]> (versions r);
                   rec_icon := rec_icon r;
                   name := Some n;
                   description := Some d |}]> (index st))
           (log_call ev (add_miss st))).

(** [st'] is a later state of the same run as [st]: calls were only
    added, every added metadata call is for a tag that the filter accepts
    and that had no Version Record in [st], and every Package Record of
    [st] is still there with its git coordinates, its icon and all its
    Version Records. *)
Record grows (st st' : state) : Prop := {
  grows_trace :
    ∃ new, trace st' = trace st ++ new ∧
      ∀ ev q t, ev ∈ new → ev_call ev = FetchMetadata q t →
        is_valid_version t = true ∧
        version_record (index st) (pkg_id q) t = None;
  grows_index :
    ∀ id r, index st !! id = Some r →
      ∃ r', index st' !! id = Some r' ∧ git r' = git r ∧
            rec_icon r' = rec_icon r ∧ versions r ⊆ versions r'
}.

(** What one package's pass leaves alone: the records and cache entries
    of the other packages. *)
Definition same_elsewhere (id : string) (st st' : state) : Prop :=
  ∀ id', id' ≠ id →
    index st' !! id' = index st !! id' ∧ cache st' !! id' = cache st !! id'.

(** What the inner loop of package [p] leaves alone: the cache, the cache
    file, the package counter and the records of the other packages; the
    calls it adds are metadata calls of [p]. *)
Record inner_frame (p : package) (st st' : state) : Prop := {
  inner_cache : cache st' = cache st;
  inner_cache_file : cache_file st' = cache_file st;
  inner_num_packages : num_packages st' = num_packages st;
  inner_index : ∀ id, id ≠ pkg_id p → index st' !! id = index st !! id;
  inner_trace :
    ∃ new, trace st' = trace st ++ new ∧
      Forall (λ ev, ∃ t, ev_call ev = FetchMetadata p t) new
}.

(** A run left through [sys.exit(2)] right after the call [ev]. *)
Definition stops_after (st : state) (r : result) (ev : event) : Prop :=
  r = Exit 2 (final r) ∧ ∃ before, trace (final r) = trace st ++ before ++ [ev].

(** From [st], every tag listing answered with status 404 ends the run
    on the spot with exit code 2. *)
Definition aborts_on_404 (st : state) (r : result) : Prop :=
  ∃ new, trace (final r) = trace st ++ new ∧
    ∀ ev q resp, ev ∈ new → ev_call ev = ListTags q →
      ev_response ev = Some resp → status_code resp = 404 →
      stops_after st r ev.

(** Every metadata call of the trace made for package id [id] got an
    answer after which the tag is skipped. *)
Definition all_skipped (id : string) (tr : list event) : Prop :=
  ∀ ev q t resp,
    ev ∈ tr → ev_call ev = FetchMetadata q t → pkg_id q = id →
    ev_response ev = Some resp → skips resp = true.

(** ** Vocabulary of the two-run property *)

Definition metadata_request (template : package → string → string → string)
    (p : package) (tag : string) : request :=
  {| url := template p tag "metadata.json"; req_headers := ∅ |}.

(** In the second run the provider reports every tag list as not
    modified against the validation token the cache holds. *)
Definition not_modified (net : network) (c : gmap string cache_entry)
    (packages : list package) : Prop :=
  ∀ p e template h,
    p ∈ packages → c !! pkg_id p = Some e →
    GIT_PROVIDER_TO_TAGS_URL (git_provider p) = Some template →
    ∃ resp,
      net h {| url := template p;
               req_headers := {[ "If-None-Match" := ETag e ]} |} = Some resp ∧
      status_code resp = 304.

(** The provider answers a metadata request in the second run as it did,
    at any time, in the first. *)
Definition same_metadata (net1 net2 : network) (packages : list package) : Prop :=
  ∀ p tag template h1 h2,
    p ∈ packages →
    GIT_PROVIDER_TO_RAW_URL (git_provider p) = Some template →
    net2 h2 (metadata_request template p tag)
    = net1 h1 (metadata_request template p tag).

(** The metadata call for [tag] of [p] got, at some time, an answer after
    which the tag is skipped. *)
Definition skipped_once (net : network) (p : package) (tag : string) : Prop :=
  ∃ template h resp,
    GIT_PROVIDER_TO_RAW_URL (git_provider p) = Some template ∧
    supported_url (template p tag "metadata.json") = true ∧
    net h (metadata_request template p tag) = Some resp ∧
    skips resp = true.

(** The metadata call for [tag] of [p] gets such an answer at any time. *)
Definition always_skipped (net : network) (p : package) (tag : string) : Prop :=
  ∃ template,
    GIT_PROVIDER_TO_RAW_URL (git_provider p) = Some template ∧
    supported_url (template p tag "metadata.json") = true ∧
    ∀ h, ∃ resp,
      net h (metadata_request template p tag) = Some resp ∧
      skips resp = true.

(** The index and the cache after package [p] has been gone through:
    [p] has a cache entry whose tags decode and a Package Record, and
    the valid tags without a Version Record are those that [unrecorded]
    accounts for. *)
Definition passed (unrecorded : package → string → Prop) (p : package)
    (i : gmap string package_record) (c : gmap string cache_entry) : Prop :=
  ∃ template e tags r,
    GIT_PROVIDER_TO_TAGS_URL (git_provider p) = Some template ∧
    supported_url (template p) = true ∧
    c !! pkg_id p = Some e ∧
    tags_of_content (Content e) = inr tags ∧
    i !! pkg_id p = Some r ∧
    ∀ t, t ∈ tags → is_valid_version t = true → versions r !! t = None →
         unrecorded p t.

(** The tags of [p] the cache holds. *)
Definition cached_tags (c : gmap string cache_entry) (p : package) : list string :=
  match c !! pkg_id p with
  | Some e =>
      match tags_of_content (Content e) with
      | inr tags => tags
      | inl _ => []
      end
  | None => []
  end.

(** Line 134 answers yes for this tag. *)
Definition has_version (i : gmap string package_record) (p : package)
    (tag : string) : bool :=
  is_valid_version tag && bool_decide (is_Some (version_record i (pkg_id p) tag)).

(** The valid tags of [p] in the cache that have a Version Record. *)
Definition recorded_tags (i : gmap string package_record)
    (c : gmap string cache_entry) (p : package) : list string :=
  List.filter (has_version i p) (cached_tags c p).

Definition is_metadata_call (ev : event) : bool :=
  match ev_call ev with
  | FetchMetadata _ _ => true
  | ListTags _ => false
  end.

(** What a call of the second run looks like: a tag listing answered
    with 304, or a metadata call for a valid tag that still has no
    Version Record, answered as in the first run by a response after
    which the tag is skipped. *)
Definition second_run_call (i : gmap string package_record) (ev : event) : Prop :=
  match ev_call ev with
  | ListTags _ =>
      ∃ resp, ev_response ev = Some resp ∧ status_code resp = 304
  | FetchMetadata q t =>
      is_valid_version t = true ∧ version_record i (pkg_id q) t = None ∧
      ∃ resp, ev_response ev = Some resp ∧ skips resp = true
  end.

(** ** Concrete packages, providers and files *)

Definition demo : package :=
  {| pkg_id := "demoapp"; git_provider := "github.com";
     git_owner := "afdaniele"; git_repository := "demoapp";
     icon := "icon.png" |}.

Definition other : package :=
  {| pkg_id := "other"; git_provider := "github.com";
     git_owner := "afdaniele"; git_repository := "other";
     icon := "other.png" |}.

(** The body of a tag listing: one object with a [ref] for each tag. *)
Definition refs (tags : list string) : json :=
  JArr ((λ t, JObj {[ "ref" := JStr ("refs/tags/" +:+ t) ]}) <$> tags).

Definition demo_metadata : json :=
  JObj (<["name" := JStr "Demo"]>
       (<["description" := JStr "d"]>
        {[ "dependencies" := JObj {[ "packages" := JObj ∅ ]} ]})).

(** A document that also carries an icon and git coordinates. *)
Definition rich_metadata : json :=
  JObj (<["name" := JStr "Demo"]>
       (<["description" := JStr "d"]>
       (<["icon" := JStr "new.png"]>
       (<["git" := JObj {[ "owner" := JStr "someone-else" ]}]>
        {[ "dependencies" := JObj {[ "packages" := JObj ∅ ]} ]})))).

Definition answer (status : Z) (hdrs : gmap string string) (body : option json)
    : response :=
  {| status_code := status; headers := hdrs; json_body := body |}.

Definition demo_tags_url : string :=
  "https://api.github.com/repos/afdaniele/demoapp/git/refs/tags".

Definition other_tags_url : string :=
  "https://api.github.com/repos/afdaniele/other/git/refs/tags".

Definition demo_raw_url (tag : string) : string :=
  "https://raw.githubusercontent.com/afdaniele/demoapp/" +:+ tag
    +:+ "/metadata.json".

(** A provider with one repository, three tags, and metadata at v1.0.0
    only.  A conditional listing is answered with 304. *)
Definition demo_provider : network := λ _ req,
  if String.eqb (url req) demo_tags_url then
    match req_headers req !! "If-None-Match" with
    | Some _ => Some (answer 304 ∅ None)
    | None =>
        Some (answer 200 {[ "ETag" := "abc" ]}
                (Some (refs ["v1.0.0"; "main"; "v1.0.1"])))
    end
  else if String.eqb (url req) (demo_raw_url "v1.0.0") then
    Some (answer 200 ∅ (Some demo_metadata))
  else Some (answer 404 ∅ None).

(** The same repository when its metadata can no longer be fetched. *)
Definition broken_provider : network := λ _ req,
  if String.eqb (url req) demo_tags_url then
    Some (answer 200 {[ "ETag" := "def" ]} (Some (refs ["v1.0.0"])))
  else Some (answer 404 ∅ None).

(** The same repository when only a branch-like tag is left. *)
Definition untagged_provider : network := λ _ req,
  if String.eqb (url req) demo_tags_url then
    Some (answer 200 {[ "ETag" := "ghi" ]} (Some (refs ["main"])))
  else Some (answer 404 ∅ None).

(** No repository at all: every request is answered with 404. *)
Definition empty_provider : network := λ _ _, Some (answer 404 ∅ None).

(** A provider out of quota for the first repository: status 401 and a
    remaining rate limit of zero, the header being the string a response
    carries. *)
Definition exhausted_provider : network := λ _ req,
  if String.eqb (url req) demo_tags_url then
    Some (answer 401 {[ "X-RateLimit-Remaining" := "0" ]} None)
  else if String.eqb (url req) other_tags_url then
    Some (answer 200 {[ "ETag" := "xyz" ]} (Some (refs [])))
  else Some (answer 404 ∅ None).

(** A provider whose metadata file at v1.0.0 is not JSON. *)
Definition garbled_provider : network := λ _ req,
  if String.eqb (url req) demo_tags_url then
    Some (answer 200 {[ "ETag" := "abc" ]} (Some (refs ["v1.0.0"; "v1.0.1"])))
  else if String.eqb (url req) (demo_raw_url "v1.0.0") then
    Some (answer 200 ∅ None)
  else Some (answer 200 ∅ (Some demo_metadata)).

(** A provider whose metadata carries an icon and git coordinates. *)
Definition rich_provider : network := λ _ req,
  if String.eqb (url req) demo_tags_url then
    Some (answer 200 {[ "ETag" := "abc" ]} (Some (refs ["v1.0.0"])))
  else Some (answer 200 ∅ (Some rich_metadata)).

Definition no_files : disk :=
  {| cache_json := Missing; index_json := Missing |}.

(** The state of line 127 for [demo] on a first run. *)
Definition at_header : state := add_header demo (empty_state no_files).

Definition default_version : version_info :=
  {| dependencies := JObj ∅; compatibility := NO_COMPATIBILITY_DATA |}.

(** The first run against [demo_provider], and the files it leaves. *)
Definition first_run : result * disk := main demo_provider false [demo] no_files.

Definition calls (r : result) : list call := ev_call <$> trace (final r).

Definition statuses (r : result) : list (option Z) :=
  (λ ev, status_code <$> ev_response ev) <$> trace (final r).

Definition persisted (d : disk) (id : string) : option package_record :=
  match index_json d with
  | Holds i => i !! id
  | _ => None
  end.

Fixpoint has_newline (s : string) : bool :=
  match s with
  | EmptyString => false
  | String c s' => Ascii.eqb c Re.newline || has_newline s'
  end.

(** ** Vocabulary of the further properties *)

(** [sep.join(parts)] *)
Fixpoint join (sep : string) (parts : list string) : string :=
  match parts with
  | [] => EmptyString
  | [x] => x
  | x :: rest => x +:+ sep +:+ join sep rest
  end.

Fixpoint has_char (c : ascii) (s : string) : bool :=
  match s with
  | EmptyString => false
  | String c' s' => Ascii.eqb c' c || has_char c s'
  end.

(** [tag] is what [split('/')[-1]] takes from [ref]: the part after the
    last slash, all of [ref] when it has none. *)
Definition last_segment_of (ref tag : string) : Prop :=
  has_char "/" tag = false ∧ (ref = tag ∨ ∃ before, ref = before +:+ "/" +:+ tag).

(** An element of a tag listing from which line 115 gets [tag]. *)
Definition names_tag (b : json) (tag : string) : Prop :=
  ∃ fields ref,
    b = JObj fields ∧ fields !! "ref" = Some (JStr ref) ∧
    last_segment_of ref tag.

(** A package hosted where the script has no URL to offer. *)
Definition mirror : package :=
  {| pkg_id := "mirror"; git_provider := "bitbucket.com";
     git_owner := "afdaniele"; git_repository := "mirror";
     icon := "mirror.png" |}.

(** From [st], the only way through [sys.exit] is exit code 2, right
    after a tag listing answered with 404. *)
Definition exits_on_404 (st : state) (r : result) : Prop :=
  ∃ new, trace (final r) = trace st ++ new ∧
    ∀ code st', r = Exit code st' →
      code = 2 ∧
      ∃ before ev p resp,
        new = before ++ [ev] ∧ ev_call ev = ListTags p ∧
        ev_response ev = Some resp ∧ status_code resp = 404.

(** The package [demo] after it has moved to another owner, and a
    provider that knows the new repository. *)
Definition moved : package :=
  {| pkg_id := "demoapp"; git_provider := "github.com";
     git_owner := "someone-else"; git_repository := "demoapp";
     icon := "new.png" |}.

Definition moved_provider : network := λ _ req,
  if String.eqb (url req)
       "https://api.github.com/repos/someone-else/demoapp/git/refs/tags" then
    Some (answer 200 {[ "ETag" := "jkl" ]} (Some (refs ["v2.0.0"])))
  else Some (answer 200 ∅ (Some demo_metadata)).

(** Every package of the index that has a Version Record has a name and
    a description. *)
Definition named_when_versioned (i : gmap string package_record) : Prop :=
  ∀ id r, i !! id = Some r → versions r ≠ ∅ →
    is_Some (name r) ∧ is_Some (description r).

(** The calls that line 101 or line 138 counts as a cache miss: a tag
    listing answered with status 200, and every metadata call. *)
Definition costs_miss (ev : event) : bool :=
  match ev_call ev with
  | FetchMetadata _ _ => true
  | ListTags _ =>
      match ev_response ev with
      | Some resp => status_code resp =? 200
      | None => false
      end
  end.

(** The Package Record of [demo] that the first run leaves. *)
Definition demo_record : package_record :=
  {| git := git (header_of demo);
     versions := {[ "v1.0.0" := default_version ]};
     rec_icon := rec_icon (header_of demo);
     name := Some (JStr "Demo");
     description := Some (JStr "d") |}.

(** Every Version Record of [st'] was in [st] already or was built, for
    a tag that the filter accepts, from the document of a metadata call
    made in between and answered with status 200. *)
Definition provenance (st st' : state) : Prop :=
  ∃ new, trace st' = trace st ++ new ∧
    ∀ id tag v, version_record (index st') id tag = Some v →
      version_record (index st) id tag = Some v ∨
      is_valid_version tag = true ∧
      ∃ ev q resp metadata deps,
        ev ∈ new ∧ ev_call ev = FetchMetadata q tag ∧ pkg_id q = id ∧
        ev_response ev = Some resp ∧ status_code resp = 200 ∧
        json_body resp = Some metadata ∧
        py_getitem metadata "dependencies" = inr deps ∧
        py_getitem deps "packages" = inr (dependencies v) ∧
        compatibility_of metadata = inr (compatibility v).

(** The miss counter agrees with the calls made. *)
Definition misses_counted (st : state) : Prop :=
  misses st = length (List.filter costs_miss (trace st)).

(** When the piece of the run from [st] reaches its end, every tag
    listing it sent without a validation token was answered with 200. *)
Definition first_listings_fresh (st : state) (r : result) : Prop :=
  ∃ new, trace (final r) = trace st ++ new ∧
    ∀ st', r = Ok st' →
      ∀ ev p, ev ∈ new → ev_call ev = ListTags p →
        req_headers (ev_request ev) = ∅ →
        ∃ resp, ev_response ev = Some resp ∧ status_code resp = 200.

(** The exception a call brings about by itself: [RequestException] when
    it gets no response, [JSONDecodeError] when the response has status
    200 and a body that does not decode (for a tag listing the [ETag]
    header is read first and must be there). *)
Definition fatal (ev : event) : option exn :=
  match ev_response ev with
  | None => Some RequestException
  | Some resp =>
      match json_body resp with
      | Some _ => None
      | None =>
          if status_code resp =? 200 then
            match ev_call ev with
            | FetchMetadata _ _ => Some JSONDecodeError
            | ListTags _ =>
                match headers resp !! "ETag" with
                | Some _ => Some JSONDecodeError
                | None => None
                end
            end
          else None
      end
  end.

(** From [st], a call that brings about an exception is the last call of
    the run, which ends with that exception. *)
Definition ends_on_fatal (st : state) (r : result) : Prop :=
  ∃ new, trace (final r) = trace st ++ new ∧
    ∀ ev e, ev ∈ new → fatal ev = Some e →
      (∃ st', r = Raise e st') ∧ ∃ before, new = before ++ [ev].

(** A provider that lists one tag of [demo] and then stops answering, and
    the metadata call that it leaves without a response. *)
Definition flaky_provider : network := λ _ req,
  if String.eqb (url req) demo_tags_url then
    Some (answer 200 {[ "ETag" := "abc" ]} (Some (refs ["v1.0.0"])))
  else None.

Definition dropped_call : event :=
  {| ev_call := FetchMetadata demo "v1.0.0";
     ev_request := {| url := demo_raw_url "v1.0.0"; req_headers := ∅ |};
     ev_response := None |}.

(** The call of [garbled_provider] whose body is not JSON. *)
Definition garbled_call : event :=
  {| ev_call := FetchMetadata demo "v1.0.0";
     ev_request := {| url := demo_raw_url "v1.0.0"; req_headers := ∅ |};
     ev_response := Some (answer 200 ∅ None) |}.

(** [st] with another content of the cache file, and a result with its
    state changed. *)
Definition with_cache_file (f : file (gmap string cache_entry)) (st : state)
    : state :=
  {| cache := cache st; index := index st; hits := hits st;
     misses := misses st; num_packages := num_packages st;
     cache_file := f; trace := trace st |}.

Definition map_result (g : state → state) (r : result) : result :=
  match r with
  | Ok st => Ok (g st)
  | Exit code st => Exit code (g st)
  | Raise e st => Raise e (g st)
  end.

(** * Properties *)

(** ** The version filter *)

Section VersionFilter.

Lemma append_nil_l (s : string) : EmptyString +:+ s = s.
Proof. reflexivity. Qed.

Lemma append_cons (c : ascii) (a s : string) :
  String c a +:+ s = String c (a +:+ s).
Proof. reflexivity. Qed.

Lemma append_assoc (a b c : string) : (a +:+ b) +:+ c = a +:+ b +:+ c.
Proof.
  induction a as [|x a IH]; [reflexivity|].
  rewrite !append_cons, IH. reflexivity.
Qed.

Lemma append_empty_r (a : string) : a +:+ EmptyString = a.
Proof.
  induction a as [|x a IH]; [reflexivity|]. rewrite append_cons, IH. reflexivity.
Qed.

Ltac norm_append :=
  rewrite ?append_assoc, ?append_cons, ?append_nil_l, ?append_empty_r.

Lemma decimal_cons c s :
  decimal (String c s) = true ↔
  Re.is_digit c = true ∧ (s = EmptyString ∨ decimal s = true).
Proof.
  cbn [decimal all_digits]. rewrite andb_true_iff.
  destruct s as [|c' s']; cbn [decimal]; intuition (auto; discriminate).
Qed.

(** [[\d]+] followed by [rest] matches exactly the strings that start with
    a decimal number after which [rest] matches. *)
Lemma plus_loop_digits (rest : string → bool) (s : string) :
  Re.plus_loop Re.Digit rest s = true ↔
  ∃ d s', decimal d = true ∧ s = d +:+ s' ∧ rest s' = true.
Proof.
  split.
  - induction s as [|c s IH]; cbn [Re.plus_loop Re.in_charset]; [discriminate|].
    rewrite andb_true_iff, orb_true_iff. intros [Hc [Hmore|Hrest]].
    + destruct (IH Hmore) as (d & s' & Hd & -> & Hk).
      exists (String c d), s'. rewrite decimal_cons. auto.
    + exists (String c EmptyString), s. rewrite decimal_cons. auto.
  - intros (d & s' & Hd & -> & Hk). induction d as [|c d IH]; [discriminate|].
    apply decimal_cons in Hd as [Hc Hd].
    rewrite append_cons. cbn [Re.plus_loop Re.in_charset]. rewrite Hc. cbn [andb].
    destruct Hd as [->|Hd]; rewrite ?append_nil_l.
    + rewrite Hk. apply orb_true_r.
    + rewrite (IH Hd). reflexivity.
Qed.

Lemma one_char (c : ascii) (rest : string → bool) (s : string) :
  match s with
  | String c' s' => Ascii.eqb c' c && rest s'
  | EmptyString => false
  end = true ↔ ∃ s', s = String c s' ∧ rest s' = true.
Proof.
  destruct s as [|c' s']; [split; [discriminate|intros (? & ? & _); discriminate]|].
  rewrite andb_true_iff, Ascii.eqb_eq. split.
  - intros [-> Hk]. eauto.
  - intros (s & [= -> ->] & Hk). auto.
Qed.

Lemma at_end_spec (s : string) :
  Re.at_end s = true ↔ s = EmptyString ∨ s = nl.
Proof.
  destruct s as [|c [|c' s]]; cbn [Re.at_end].
  - intuition.
  - rewrite Ascii.eqb_eq. unfold nl. split; [intros ->; auto|].
    intros [|[= ->]]; [discriminate|reflexivity].
  - split; [discriminate|]. intros [|]; discriminate.
Qed.

(** What [re.match(VERSION_REGEX, tag)] accepts: a version, or a version
    followed by one newline. *)
Theorem is_valid_version_spec (tag : string) :
  is_valid_version tag = true ↔
  ∃ a b c, decimal a = true ∧ decimal b = true ∧ decimal c = true ∧
           (tag = version_string a b c ∨ tag = version_string a b c +:+ nl).
Proof.
  unfold is_valid_version, Re.re_match, VERSION_REGEX.
  cbn [Re.match_here Re.in_charset andb]. unfold version_string.
  rewrite one_char. split.
  - intros (s1 & -> & H). apply plus_loop_digits in H as (a & s2 & Ha & -> & H).
    apply one_char in H as (s3 & -> & H).
    apply plus_loop_digits in H as (b & s4 & Hb & -> & H).
    apply one_char in H as (s5 & -> & H).
    apply plus_loop_digits in H as (c & s6 & Hc & -> & H).
    rewrite andb_true_r in H. apply at_end_spec in H.
    exists a, b, c. repeat split; try assumption.
    destruct H as [->| ->]; [left|right]; repeat norm_append; reflexivity.
  - intros (a & b & c & Ha & Hb & Hc & Htag).
    assert (∃ e, (e = EmptyString ∨ e = nl) ∧
                 tag = String "v" (a +:+ "." +:+ b +:+ "." +:+ c +:+ e))
      as (e & He & ->).
    { destruct Htag as [->| ->]; [exists EmptyString|exists nl];
        (split; [auto|]); repeat norm_append; reflexivity. }
    eexists. split; [reflexivity|].
    apply plus_loop_digits. eexists a, _. repeat split; [assumption|].
    apply (one_char "."). eexists. split; [reflexivity|].
    apply plus_loop_digits. eexists b, _. repeat split; [assumption|].
    apply (one_char "."). eexists. split; [reflexivity|].
    apply plus_loop_digits. eexists c, _. repeat split; [assumption|].
    rewrite andb_true_r. apply at_end_spec. assumption.
Qed.

End VersionFilter.

(** ** One pass through the inner loop *)

Section InnerLoop.

Context (net : network) (p : package).

(** Every [Ok] of [process_tag] is one of the four steps. *)
Lemma process_tag_Ok (st st' : state) (tag : string) :
  process_tag net p st tag = Ok st' → tag_step net p st tag st'.
Proof.
  unfold process_tag.
  destruct (is_valid_version tag) eqn:Hvalid; cbn [negb];
    [|intros [= <-]; by constructor].
  destruct (index st !! pkg_id p) as [r|] eqn:Hr; [|discriminate].
  case_bool_decide as Hin.
  { intros [= <-]. by econstructor. }
  assert (versions r !! tag = None) as Hnone.
  { destruct (versions r !! tag) eqn:?; [exfalso; eauto|done]. }
  destruct (GIT_PROVIDER_TO_RAW_URL (git_provider p)) as [template|] eqn:Hurl;
    [|discriminate].
  destruct (requests_get _ _ _ _ _) as [resp st1] eqn:Hget.
  assert (metadata_call net p tag st
            {| ev_call := FetchMetadata p tag;
               ev_request := {| url := template p tag "metadata.json";
                                req_headers := ∅ |};
               ev_response := resp |}) as Hcall.
  { exists template. split; [done|]. by rewrite Hget. }
  assert (st1 = log_call {| ev_call := FetchMetadata p tag;
               ev_request := {| url := template p tag "metadata.json";
                                req_headers := ∅ |};
               ev_response := resp |} (add_miss st)) as ->.
  { unfold requests_get in Hget. by injection Hget as <- <-. }
  destruct resp as [resp|]; [|discriminate].
  destruct (status_code resp =? 404) eqn:H404.
  { intros [= <-]. eapply tag_skipped; eauto. unfold skips. by rewrite H404. }
  destruct (metadata_of resp) as [metadata|] eqn:Hmeta; [|discriminate].
  destruct (py_len metadata) as [e|[|n]] eqn:Hlen; [discriminate| |].
  { intros [= <-]. eapply tag_skipped; eauto.
    unfold skips. by rewrite H404, Hmeta, Hlen. }
  unfold record_version. cbn [index set_index log_call add_miss].
  rewrite Hr.
  destruct (py_getitem metadata "name") as [|nm] eqn:Hname; [discriminate|].
  destruct (py_getitem metadata "description") as [|ds] eqn:Hdesc; [discriminate|].
  destruct (py_getitem metadata "dependencies") as [|deps] eqn:Hdeps; [discriminate|].
  destruct (py_getitem deps "packages") as [|dp] eqn:Hdp; [discriminate|].
  destruct (compatibility_of metadata) as [|compat] eqn:Hcompat; [discriminate|].
  intros [= <-].
  assert (status_code resp = 200 ∧ json_body resp = Some metadata) as [H200 Hbody].
  { unfold metadata_of in Hmeta. destruct (status_code resp =? 200) eqn:E.
    - split; [lia|done].
    - injection Hmeta as <-. discriminate. }
  rewrite insert_insert_eq.
  eapply (tag_recorded net p st tag r _ resp metadata); eauto.
  unfold skips. by rewrite H404, Hmeta, Hlen.
Qed.

End InnerLoop.

(** ** States only grow *)

Section Grows.

Lemma version_record_Some i id tag v :
  version_record i id tag = Some v ↔
  ∃ r, i !! id = Some r ∧ versions r !! tag = Some v.
Proof.
  unfold version_record. destruct (i !! id) as [r|]; cbn.
  - split; [eauto|]. by intros (? & [= <-] & ?).
  - split; [done|]. by intros (? & ? & ?).
Qed.

Lemma grows_refl st : grows st st.
Proof.
  split.
  - exists []. split; [by rewrite app_nil_r|]. intros ev q t Hin. inversion Hin.
  - intros id r Hr. exists r. done.
Qed.

Lemma grows_records st st' id tag v :
  grows st st' →
  version_record (index st) id tag = Some v →
  version_record (index st') id tag = Some v.
Proof.
  intros [_ Hi]. rewrite !version_record_Some. intros (r & Hr & Hv).
  destruct (Hi id r Hr) as (r' & Hr' & _ & _ & Hsub).
  exists r'. split; [done|]. by eapply lookup_weaken.
Qed.

Lemma grows_trans st1 st2 st3 : grows st1 st2 → grows st2 st3 → grows st1 st3.
Proof.
  intros H12 H23. split.
  - destruct (grows_trace _ _ H12) as (n1 & E1 & F1).
    destruct (grows_trace _ _ H23) as (n2 & E2 & F2).
    exists (n1 ++ n2). split; [by rewrite E2, E1, app_assoc|].
    intros ev q t [Hin|Hin]%elem_of_app Hcall; [by eapply F1|].
    destruct (F2 ev q t Hin Hcall) as [Hv Hnone]. split; [done|].
    destruct (version_record (index st1) (pkg_id q) t) as [v|] eqn:E; [|done].
    by rewrite (grows_records _ _ _ _ _ H12 E) in Hnone.
  - intros id r Hr.
    destruct (grows_index _ _ H12 id r Hr) as (r2 & Hr2 & Hg2 & Hi2 & Hs2).
    destruct (grows_index _ _ H23 id r2 Hr2) as (r3 & Hr3 & Hg3 & Hi3 & Hs3).
    exists r3. repeat split; [done|congruence|congruence|by etrans].
Qed.

(** A step that touches neither the trace nor the index. *)
Lemma grows_same st st' :
  trace st' = trace st → index st' = index st → grows st st'.
Proof.
  intros Ht Hi. split.
  - exists []. rewrite Ht, app_nil_r. split; [done|]. intros ev q t Hin. inversion Hin.
  - intros id r Hr. exists r. by rewrite Hi.
Qed.

(** One more call. *)
Lemma grows_log_call st ev :
  (∀ q t, ev_call ev = FetchMetadata q t →
     is_valid_version t = true ∧ version_record (index st) (pkg_id q) t = None) →
  grows st (log_call ev st).
Proof.
  intros Hev. split.
  - exists [ev]. split; [done|]. intros e q t ->%list_elem_of_singleton. apply Hev.
  - intros id r Hr. exists r. done.
Qed.

(** A Package Record replaced by a larger one, or a new one. *)
Lemma grows_set_index st id r' :
  (∀ r, index st !! id = Some r →
     git r' = git r ∧ rec_icon r' = rec_icon r ∧ versions r ⊆ versions r') →
  grows st (set_index (<[id := r']> (index st)) st).
Proof.
  intros Hr'. split.
  - exists []. cbn. rewrite app_nil_r. split; [done|]. intros ev q t Hin. inversion Hin.
  - intros id0 r Hr. cbn. destruct (decide (id0 = id)) as [->|Hne].
    + exists r'. rewrite lookup_insert_eq. destruct (Hr' r Hr) as (? & ? & ?). done.
    + exists r. by rewrite lookup_insert_ne.
Qed.

End Grows.

Section InnerLoopGrows.

Context (net : network) (p : package).

(** The state after a call is the state before it with the call logged;
    the response is the network's, unless the URL is refused. *)
Lemma requests_get_inv c u hdrs st resp st1 :
  requests_get net c u hdrs st = (resp, st1) →
  st1 = log_call {| ev_call := c;
                    ev_request := {| url := u; req_headers := hdrs |};
                    ev_response := resp |} st ∧
  resp = if supported_url u
         then net (trace st) {| url := u; req_headers := hdrs |} else None.
Proof. unfold requests_get. by intros [= <- <-]. Qed.

Lemma record_version_grows st tag metadata r :
  index st !! pkg_id p = Some r →
  versions r !! tag = None →
  grows st (final (record_version p tag metadata st)).
Proof.
  intros Hr Hnone. unfold record_version. rewrite Hr.
  destruct (py_getitem metadata "name") as [|n]; [apply grows_refl|].
  destruct (py_getitem metadata "description") as [|d]; [apply grows_refl|].
  assert (grows st (set_index (<[pkg_id p := set_name_description n d r]> (index st)) st))
    as Hnamed.
  { apply grows_set_index. intros r0. rewrite Hr. by intros [= <-]. }
  destruct (py_getitem metadata "dependencies") as [|deps]; [exact Hnamed|].
  destruct (py_getitem deps "packages") as [|dp]; [exact Hnamed|].
  destruct (compatibility_of metadata) as [|compat]; [exact Hnamed|].
  cbn [final index set_index]. rewrite insert_insert_eq.
  set (info := {| dependencies := dp; compatibility := compat |}).
  change (grows st (set_index
            (<[pkg_id p := set_version tag info (set_name_description n d r)]>
               (index st)) st)).
  apply grows_set_index. intros r0. rewrite Hr. intros [= <-].
  repeat split. cbn. by apply insert_subseteq.
Qed.

(** Whatever way the loop body is left, the state has grown. *)
Lemma process_tag_grows st tag :
  grows st (final (process_tag net p st tag)).
Proof.
  unfold process_tag.
  destruct (is_valid_version tag) eqn:Hvalid; cbn [negb]; [|apply grows_refl].
  destruct (index st !! pkg_id p) as [r|] eqn:Hr; [|apply grows_refl].
  case_bool_decide as Hin; [by apply grows_same|].
  assert (versions r !! tag = None) as Hnone.
  { destruct (versions r !! tag) eqn:?; [exfalso; eauto|done]. }
  assert (grows st (add_miss st)) as Hmiss by by apply grows_same.
  destruct (GIT_PROVIDER_TO_RAW_URL (git_provider p)) as [template|]; [|exact Hmiss].
  destruct (requests_get _ _ _ _ _) as [resp st1] eqn:Hget.
  apply requests_get_inv in Hget as [-> _].
  match goal with |- context [log_call ?e _] => set (ev := e) end.
  assert (grows st (log_call ev (add_miss st))) as Hcall.
  { eapply grows_trans; [exact Hmiss|]. apply grows_log_call.
    intros q t [= <- <-]. split; [done|].
    unfold version_record. cbn. by rewrite Hr. }
  destruct resp as [resp|]; [|exact Hcall].
  destruct (status_code resp =? 404); [exact Hcall|].
  destruct (metadata_of resp) as [metadata|]; [|exact Hcall].
  destruct (py_len metadata) as [e|[|n]]; [exact Hcall|exact Hcall|].
  eapply grows_trans; [exact Hcall|]. by eapply record_version_grows.
Qed.

End InnerLoopGrows.

(** ** Loops *)

Section Loops.

Context {A : Type} (body : state → A → result).

(** A preorder on states that every pass through the body respects is
    respected by the whole loop, however the loop is left. *)
Lemma for_each_final (R : state → state → Prop) :
  (∀ st, R st st) →
  (∀ st1 st2 st3, R st1 st2 → R st2 st3 → R st1 st3) →
  (∀ st x, R st (final (body st x))) →
  ∀ l st, R st (final (for_each body l st)).
Proof.
  intros Hrefl Htrans Hbody l. induction l as [|x l IH]; intros st; cbn.
  - apply Hrefl.
  - pose proof (Hbody st x) as Hx. destruct (body st x) as [st1| |]; cbn in *.
    + eapply Htrans; [exact Hx|apply IH].
    + exact Hx.
    + exact Hx.
Qed.

Lemma for_each_app l1 l2 st :
  for_each body (l1 ++ l2) st = and_then (for_each body l1 st) (for_each body l2).
Proof.
  revert st. induction l1 as [|x l1 IH]; intros st; cbn; [done|].
  destruct (body st x); cbn; [apply IH|done|done].
Qed.

End Loops.

Section InnerLoopFrame.

Context (net : network) (p : package).

Lemma inner_frame_refl st : inner_frame p st st.
Proof. split; try done. exists []. by rewrite app_nil_r. Qed.

Lemma inner_frame_trans st1 st2 st3 :
  inner_frame p st1 st2 → inner_frame p st2 st3 → inner_frame p st1 st3.
Proof.
  intros [c1 f1 n1 i1 (new1 & t1 & F1)] [c2 f2 n2 i2 (new2 & t2 & F2)].
  split; try congruence.
  - intros id Hid. by rewrite i2, i1.
  - exists (new1 ++ new2). split; [by rewrite t2, t1, app_assoc|].
    by apply Forall_app.
Qed.

Lemma process_tag_frame st tag :
  inner_frame p st (final (process_tag net p st tag)).
Proof.
  unfold process_tag.
  destruct (negb (is_valid_version tag)); [apply inner_frame_refl|].
  destruct (index st !! pkg_id p) as [r|] eqn:Hr; [|apply inner_frame_refl].
  case_bool_decide as Hin.
  { split; try done. exists []. by rewrite app_nil_r. }
  assert (inner_frame p st (add_miss st)) as Hmiss.
  { split; try done. exists []. by rewrite app_nil_r. }
  destruct (GIT_PROVIDER_TO_RAW_URL (git_provider p)) as [template|]; [|exact Hmiss].
  destruct (requests_get _ _ _ _ _) as [resp st1] eqn:Hget.
  apply requests_get_inv in Hget as [-> _].
  match goal with |- context [log_call ?e _] => set (ev := e) end.
  assert (inner_frame p st (log_call ev (add_miss st))) as Hcall.
  { split; try done. exists [ev]. split; [done|].
    apply Forall_singleton. by exists tag. }
  destruct resp as [resp|]; [|exact Hcall].
  destruct (status_code resp =? 404); [exact Hcall|].
  destruct (metadata_of resp) as [metadata|]; [|exact Hcall].
  destruct (py_len metadata) as [e|[|n]]; [exact Hcall|exact Hcall|].
  eapply inner_frame_trans; [exact Hcall|].
  generalize (log_call ev (add_miss st)). intros s.
  unfold record_version.
  repeat (case_match; try apply inner_frame_refl);
    (split; try done; cbn;
     [intros id Hid; by rewrite ?lookup_insert_ne|
      exists []; by rewrite app_nil_r]).
Qed.

Lemma tag_loop_frame st tags :
  inner_frame p st (final (for_each (process_tag net p) tags st)).
Proof.
  apply for_each_final;
    [apply inner_frame_refl|apply inner_frame_trans|apply process_tag_frame].
Qed.

Lemma tag_loop_grows st tags :
  grows st (final (for_each (process_tag net p) tags st)).
Proof.
  apply for_each_final;
    [apply grows_refl|apply grows_trans|apply process_tag_grows].
Qed.

(** The inner loop never calls [sys.exit]. *)
Lemma process_tag_no_exit st tag code st' :
  process_tag net p st tag ≠ Exit code st'.
Proof.
  unfold process_tag, record_version.
  repeat case_match; discriminate.
Qed.

Lemma tag_loop_no_exit tags st code st' :
  for_each (process_tag net p) tags st ≠ Exit code st'.
Proof.
  revert st. induction tags as [|t tags IH]; intros st; cbn; [done|].
  destruct (process_tag net p st t) eqn:E; cbn; [apply IH| |done].
  by apply process_tag_no_exit in E.
Qed.

End InnerLoopFrame.

(** ** One pass through the outer loop *)

Section OuterLoop.

Context (net : network) (no_cache : bool).

(** What [update_cache] does to the state: nothing but the counter, the
    cache entry of [p] and the cache file. *)
Lemma update_cache_final p resp st :
  let st' := final (update_cache no_cache p resp st) in
  trace st' = trace st ∧ index st' = index st ∧
  num_packages st' = num_packages st ∧
  (∀ id, id ≠ pkg_id p → cache st' !! id = cache st !! id).
Proof.
  unfold update_cache. repeat case_match; cbn; repeat split; try done;
    intros id Hid; by rewrite ?lookup_insert_ne.
Qed.

Lemma update_cache_no_exit p resp st code st' :
  update_cache no_cache p resp st ≠ Exit code st'.
Proof. unfold update_cache. repeat case_match; discriminate. Qed.

Lemma add_header_grows p st : grows st (add_header p st).
Proof.
  unfold add_header. destruct (index st !! pkg_id p) eqn:E; [apply grows_refl|].
  apply grows_set_index. intros r. by rewrite E.
Qed.

Lemma add_header_lookup p st :
  is_Some (index (add_header p st) !! pkg_id p).
Proof.
  unfold add_header. destruct (index st !! pkg_id p) eqn:E; [by rewrite E|].
  cbn. by rewrite lookup_insert_eq.
Qed.

Lemma add_header_elsewhere p st id :
  id ≠ pkg_id p → index (add_header p st) !! id = index st !! id.
Proof.
  intros Hid. unfold add_header. destruct (index st !! pkg_id p); [done|].
  cbn. by rewrite lookup_insert_ne.
Qed.

(** Every [Ok] of [process_package] went through these stations. *)
Lemma process_package_Ok st p st' :
  process_package net no_cache st p = Ok st' →
  ∃ template resp st0 st1 entry tags st2,
    GIT_PROVIDER_TO_TAGS_URL (git_provider p) = Some template ∧
    requests_get net (ListTags p) (template p)
      (conditional_headers (cache st !! pkg_id p)) st = (Some resp, st0) ∧
    status_code resp ≠ 404 ∧
    update_cache no_cache p resp st0 = Ok st1 ∧
    cache st1 !! pkg_id p = Some entry ∧
    tags_of_content (Content entry) = inr tags ∧
    for_each (process_tag net p) tags
      (add_header p (if status_code resp =? 304 then add_hit st1 else st1))
      = Ok st2 ∧
    st' = add_package st2.
Proof.
  unfold process_package.
  destruct (GIT_PROVIDER_TO_TAGS_URL (git_provider p)) as [template|]; [|discriminate].
  destruct (requests_get _ _ _ _ _) as [[resp|] st0] eqn:Hget; [|discriminate].
  destruct (quota_exhausted resp) as [|[|]]; try discriminate.
  destruct (status_code resp =? 404) eqn:H404; [discriminate|].
  destruct (update_cache no_cache p resp st0) as [st1| |] eqn:Hupd; cbn [and_then];
    try discriminate.
  assert (cache (if status_code resp =? 304 then add_hit st1 else st1) = cache st1)
    as -> by by destruct (status_code resp =? 304).
  destruct (cache st1 !! pkg_id p) as [entry|] eqn:Hentry; [|discriminate].
  destruct (tags_of_content (Content entry)) as [|tags] eqn:Htags; [discriminate|].
  destruct (for_each _ tags _) as [st2| |] eqn:Hloop; cbn [and_then]; try discriminate.
  intros [= <-]. exists template, resp, st0, st1, entry, tags, st2.
  repeat split; try done. lia.
Qed.

(** However the body of the outer loop is left, the state has grown. *)
Lemma process_package_grows st p :
  grows st (final (process_package net no_cache st p)).
Proof.
  unfold process_package.
  destruct (GIT_PROVIDER_TO_TAGS_URL (git_provider p)) as [template|];
    [|apply grows_refl].
  destruct (requests_get _ _ _ _ _) as [resp st0] eqn:Hget.
  apply requests_get_inv in Hget as [-> _].
  match goal with |- context [log_call ?e _] => set (ev := e) end.
  assert (grows st (log_call ev st)) as Hcall.
  { apply grows_log_call. intros q t. discriminate. }
  destruct resp as [resp|]; [|exact Hcall].
  destruct (quota_exhausted resp) as [|[|]]; try exact Hcall.
  destruct (status_code resp =? 404); [exact Hcall|].
  pose proof (update_cache_final p resp (log_call ev st)) as (Ht & Hi & _).
  assert (grows st (final (update_cache no_cache p resp (log_call ev st)))) as Hupd.
  { eapply grows_trans; [exact Hcall|]. by apply grows_same. }
  destruct (update_cache _ _ _ _) as [st1| |]; cbn [and_then final] in *;
    try exact Hupd.
  set (st1' := if status_code resp =? 304 then add_hit st1 else st1).
  assert (grows st st1') as H304.
  { eapply grows_trans; [exact Hupd|].
    subst st1'. destruct (status_code resp =? 304); [by apply grows_same|apply grows_refl]. }
  destruct (cache st1' !! pkg_id p) as [entry|]; [|exact H304].
  destruct (tags_of_content (Content entry)) as [|tags]; [exact H304|].
  assert (grows st (final (for_each (process_tag net p) tags (add_header p st1'))))
    as Hloop.
  { eapply grows_trans; [exact H304|]. eapply grows_trans; [apply add_header_grows|].
    apply tag_loop_grows. }
  destruct (for_each _ tags _) as [st2| |]; cbn [and_then final] in *;
    try exact Hloop.
  eapply grows_trans; [exact Hloop|]. by apply grows_same.
Qed.

(** The pass for [p] leaves the other packages' records and cache entries
    alone. *)
Lemma process_package_elsewhere st p :
  same_elsewhere (pkg_id p) st (final (process_package net no_cache st p)).
Proof.
  unfold process_package.
  destruct (GIT_PROVIDER_TO_TAGS_URL (git_provider p)) as [template|]; [|done].
  destruct (requests_get _ _ _ _ _) as [resp st0] eqn:Hget.
  apply requests_get_inv in Hget as [-> _].
  match goal with |- context [log_call ?e _] => set (ev := e) end.
  destruct resp as [resp|]; [|done].
  destruct (quota_exhausted resp) as [|[|]]; try done.
  destruct (status_code resp =? 404); [done|].
  pose proof (update_cache_final p resp (log_call ev st)) as (_ & Hi & _ & Hc).
  assert (same_elsewhere (pkg_id p) st
            (final (update_cache no_cache p resp (log_call ev st)))) as Hupd.
  { intros id Hid. by rewrite Hi, Hc. }
  destruct (update_cache _ _ _ _) as [st1| |]; cbn [and_then final] in *;
    try exact Hupd.
  set (st1' := if status_code resp =? 304 then add_hit st1 else st1).
  assert (same_elsewhere (pkg_id p) st st1') as H304.
  { subst st1'. by destruct (status_code resp =? 304). }
  destruct (cache st1' !! pkg_id p) as [entry|]; [|exact H304].
  destruct (tags_of_content (Content entry)) as [|tags]; [exact H304|].
  assert (same_elsewhere (pkg_id p) st
            (final (for_each (process_tag net p) tags (add_header p st1'))))
    as Hloop.
  { intros id Hid. destruct (H304 id Hid) as [Hi' Hc'].
    destruct (tag_loop_frame net p (add_header p st1') tags) as [c _ _ i _].
    rewrite (i id Hid), c, add_header_elsewhere by done. split; [done|].
    unfold add_header. by destruct (index st1' !! pkg_id p). }
  destruct (for_each _ tags _) as [st2| |]; cbn [and_then final] in *;
    exact Hloop.
Qed.

End OuterLoop.

Section OuterLoopResults.

Context {A : Type} (body : state → A → result).

(** A property of the way a loop is left, given that it holds for the
    body and composes along [Ok]. *)
Lemma for_each_result (P : state → result → Prop) :
  (∀ st, P st (Ok st)) →
  (∀ st st1 r, P st (Ok st1) → P st1 r → P st r) →
  (∀ st x, P st (body st x)) →
  ∀ l st, P st (for_each body l st).
Proof.
  intros Hret Hbind Hbody l. induction l as [|x l IH]; intros st; cbn.
  - apply Hret.
  - pose proof (Hbody st x) as Hx. destruct (body st x) as [st1| |]; cbn.
    + eapply Hbind; [exact Hx|apply IH].
    + exact Hx.
    + exact Hx.
Qed.

End OuterLoopResults.

Section NotFound.

Context (net : network) (no_cache : bool).

Lemma aborts_on_404_ret st : aborts_on_404 st (Ok st).
Proof.
  exists []. split; [by rewrite app_nil_r|]. intros ev q resp Hin. inversion Hin.
Qed.

Lemma aborts_on_404_bind st st1 r :
  aborts_on_404 st (Ok st1) → aborts_on_404 st1 r → aborts_on_404 st r.
Proof.
  intros (n1 & E1 & H1) (n2 & E2 & H2). cbn in E1.
  exists (n1 ++ n2). split; [by rewrite E2, E1, app_assoc|].
  intros ev q resp [Hin|Hin]%elem_of_app Hcall Hresp H404.
  - destruct (H1 ev q resp Hin Hcall Hresp H404) as [[=] _].
  - destruct (H2 ev q resp Hin Hcall Hresp H404) as [Hexit (before & Hlast)].
    split; [done|]. exists (n1 ++ before).
    by rewrite Hlast, E1, <- !app_assoc.
Qed.

(** The calls of one pass: the tag listing, then metadata calls. *)
Lemma process_package_trace st p :
  let r := process_package net no_cache st p in
  trace (final r) = trace st ∨
  ∃ template resp new,
    GIT_PROVIDER_TO_TAGS_URL (git_provider p) = Some template ∧
    resp = (requests_get net (ListTags p) (template p)
              (conditional_headers (cache st !! pkg_id p)) st).1 ∧
    trace (final r) =
      trace st ++ {| ev_call := ListTags p;
                     ev_request :=
                       {| url := template p;
                          req_headers := conditional_headers (cache st !! pkg_id p) |};
                     ev_response := resp |} :: new ∧
    Forall (λ ev, ∃ t, ev_call ev = FetchMetadata p t) new.
Proof.
  unfold process_package.
  destruct (GIT_PROVIDER_TO_TAGS_URL (git_provider p)) as [template|]; [|by left].
  right. exists template.
  destruct (requests_get _ _ _ _ _) as [resp st0] eqn:Hget.
  apply requests_get_inv in Hget as [-> _].
  match goal with |- context [log_call ?e _] => set (ev := e) end.
  exists resp. cbn [fst].
  match goal with
  | |- ∃ new, _ ∧ _ ∧ trace (final ?r) = _ ∧ _ =>
      enough (∃ new, trace (final r) = trace st ++ ev :: new ∧
                Forall (λ ev, ∃ t, ev_call ev = FetchMetadata p t) new)
        as (new & ? & ?) by by exists new
  end.
  assert (∀ st', trace st' = trace (log_call ev st) →
            ∃ new, trace st' = trace st ++ ev :: new ∧
              Forall (λ ev, ∃ t, ev_call ev = FetchMetadata p t) new) as Hsame.
  { intros st' ->. by exists []. }
  destruct resp as [resp|]; [|by apply Hsame].
  destruct (quota_exhausted resp) as [|[|]]; [by apply Hsame|by apply Hsame|].
  destruct (status_code resp =? 404); [by apply Hsame|].
  pose proof (update_cache_final no_cache p resp (log_call ev st)) as (Ht & _).
  destruct (update_cache _ _ _ _) as [st1| |]; cbn [and_then final] in *;
    try by apply Hsame.
  set (st1' := if status_code resp =? 304 then add_hit st1 else st1).
  assert (trace st1' = trace (log_call ev st)) as Ht'.
  { subst st1'. by destruct (status_code resp =? 304). }
  destruct (cache st1' !! pkg_id p) as [entry|]; [|by apply Hsame].
  destruct (tags_of_content (Content entry)) as [|tags]; [by apply Hsame|].
  destruct (tag_loop_frame net p (add_header p st1') tags)
    as [_ _ _ _ (new & Hnew & Hall)].
  assert (trace (add_header p st1') = trace st1') as Hh.
  { unfold add_header. by destruct (index st1' !! pkg_id p). }
  rewrite Hh, Ht' in Hnew. cbn [trace log_call] in Hnew.
  destruct (for_each _ tags _) as [st2| |];
    cbn [and_then final trace add_package] in *;
    exists new; by rewrite Hnew, <- app_assoc.
Qed.

Lemma process_package_404 st p :
  aborts_on_404 st (process_package net no_cache st p).
Proof.
  destruct (process_package_trace st p) as [Hnone|Hsome].
  { exists []. split; [by rewrite app_nil_r|]. intros ev q resp Hin. inversion Hin. }
  destruct Hsome as (template & resp & new & Hurl & Hresp & Ht & Hnew).
  eexists. split; [exact Ht|].
  intros e q resp' [->|Hin]%elem_of_cons Hcall Hresp' H404.
  - cbn in Hresp'. subst resp. revert Ht. unfold process_package. rewrite Hurl.
    destruct (requests_get _ _ _ _ _) as [resp st0] eqn:Hget.
    apply requests_get_inv in Hget as [-> _]. cbn [fst] in Hresp'. subst resp.
    unfold quota_exhausted.
    assert ((status_code resp' =? 401) = false) as -> by lia.
    assert ((status_code resp' =? 404) = true) as -> by lia.
    intros Ht. split; [done|]. exists []. cbn in *.
    apply app_inv_head in Ht. by injection Ht as <-.
  - rewrite Forall_forall in Hnew. destruct (Hnew e Hin) as [t Ht']. congruence.
Qed.

(** The same for the whole list of packages. *)
Lemma run_packages_404 packages st :
  aborts_on_404 st (run_packages net no_cache packages st).
Proof.
  unfold run_packages. apply (for_each_result _ aborts_on_404);
    [apply aborts_on_404_ret|apply aborts_on_404_bind|apply process_package_404].
Qed.

End NotFound.

(** ** Whole runs *)

Section Runs.

Context (net : network).

Lemma run_packages_grows no_cache packages st :
  grows st (final (run_packages net no_cache packages st)).
Proof.
  unfold run_packages. apply for_each_final;
    [apply grows_refl|apply grows_trans|apply process_package_grows].
Qed.

(** The packages after the first ones are gone through from the state
    the first ones left. *)
Lemma run_packages_app no_cache first rest st :
  run_packages net no_cache (first ++ rest) st =
  and_then (run_packages net no_cache first st) (run_packages net no_cache rest).
Proof. apply for_each_app. Qed.

Lemma initial_state_trace no_cache d st :
  initial_state no_cache d = inr st → trace st = [].
Proof.
  unfold initial_state. destruct no_cache; [by intros [= <-]|].
  destruct (index_json d); intros [= <-]; done.
Qed.

Lemma initial_state_index d i :
  index_json d = Holds i →
  ∃ st, initial_state false d = inr st ∧ index st = i.
Proof. intros Hi. unfold initial_state. rewrite Hi. eauto. Qed.

(** The calls of a run, and the state it ends in, whatever [main] finds
    on disk. *)
Lemma main_trace no_cache packages d :
  (trace (final (main net no_cache packages d).1) = [] ∧
     ∃ e, initial_state no_cache d = inl e) ∨
  ∃ st, initial_state no_cache d = inr st ∧ trace st = [] ∧
        (main net no_cache packages d).1 = run_packages net no_cache packages st.
Proof.
  unfold main. destruct (initial_state no_cache d) as [e|st] eqn:E.
  - left. split; [done|eauto].
  - right. exists st. split; [done|]. split; [|done].
    by eapply initial_state_trace.
Qed.

End Runs.

(** ** Packages whose metadata cannot be fetched *)

Section BareHeader.

Context (net : network).

Lemma for_each_cons_Ok {A : Type} (body : state → A → result) x l st st' :
  for_each body (x :: l) st = Ok st' →
  ∃ st1, body st x = Ok st1 ∧ for_each body l st1 = Ok st'.
Proof. cbn. destruct (body st x) as [st1| |]; cbn; [eauto|done|done]. Qed.

Lemma all_skipped_prefix id tr new :
  all_skipped id (tr ++ new) → all_skipped id tr.
Proof.
  intros H ev q t resp Hin. apply (H ev q t resp). apply elem_of_app. by left.
Qed.

Lemma all_skipped_grows id st st' :
  grows st st' → all_skipped id (trace st') → all_skipped id (trace st).
Proof.
  intros Hg. destruct (grows_trace _ _ Hg) as (new & -> & _).
  apply all_skipped_prefix.
Qed.

(** A pass through the loop body whose call, if any, was skipped leaves
    the index as it was. *)
Lemma tag_step_all_skipped p st tag st' :
  tag_step net p st tag st' →
  all_skipped (pkg_id p) (trace st') →
  index st' = index st.
Proof.
  intros [ | | |r ev resp metadata n d deps dp compat _ _ _ Hcall Hresp Hno] Hall;
    try done.
  exfalso. destruct Hcall as (template & _ & Hev).
  assert (skips resp = true) as Hyes; [|congruence].
  apply (Hall ev p tag resp); [|by rewrite Hev|done|done].
  cbn. apply elem_of_app. right. by apply list_elem_of_singleton.
Qed.

Lemma tag_loop_all_skipped p tags st st' :
  for_each (process_tag net p) tags st = Ok st' →
  all_skipped (pkg_id p) (trace st') →
  index st' = index st.
Proof.
  revert st. induction tags as [|t tags IH]; intros st; [by intros [= <-]|].
  intros (st1 & Hstep & Hloop)%for_each_cons_Ok Hall.
  rewrite (IH st1 Hloop Hall).
  apply (tag_step_all_skipped p st t); [by apply process_tag_Ok|].
  eapply all_skipped_grows; [|exact Hall].
  pose proof (tag_loop_grows net p st1 tags) as Hg. by rewrite Hloop in Hg.
Qed.

(** The record a package has after a pass in which none of its tags
    could be recorded: the one it had, or the header of lines 118-126. *)
Lemma process_package_all_skipped no_cache st p st' :
  process_package net no_cache st p = Ok st' →
  all_skipped (pkg_id p) (trace st') →
  index st' !! pkg_id p =
    Some (default (header_of p) (index st !! pkg_id p)).
Proof.
  intros (template & resp & st0 & st1 & entry & tags & st2 & Hurl & Hget & H404 &
          Hupd & Hentry & Htags & Hloop & ->)%process_package_Ok Hall.
  cbn [index add_package trace] in *.
  rewrite (tag_loop_all_skipped p tags _ st2 Hloop Hall).
  apply requests_get_inv in Hget as [-> _].
  pose proof (update_cache_final no_cache p resp
                (log_call {| ev_call := ListTags p;
                             ev_request := {| url := template p;
                               req_headers :=
                                 conditional_headers (cache st !! pkg_id p) |};
                             ev_response := Some resp |} st)) as (_ & Hi & _).
  rewrite Hupd in Hi. cbn [final index log_call] in Hi.
  assert (index (if status_code resp =? 304 then add_hit st1 else st1) = index st)
    as Hi'.
  { by destruct (status_code resp =? 304). }
  unfold add_header. rewrite Hi'.
  destruct (index st !! pkg_id p) as [r|] eqn:Hr; cbn [default].
  - by rewrite Hi'.
  - cbn. by rewrite lookup_insert_eq.
Qed.

(** Once a package has a record, a run in which none of its tags can be
    recorded leaves the record as it is. *)
Lemma run_packages_keeps_record no_cache packages st st' id r :
  run_packages net no_cache packages st = Ok st' →
  all_skipped id (trace st') →
  index st !! id = Some r →
  index st' !! id = Some r.
Proof.
  unfold run_packages. revert st.
  induction packages as [|q packages IH]; intros st; [by intros [= <-]|].
  intros (st1 & Hstep & Hrun)%for_each_cons_Ok Hall Hr.
  apply (IH st1 Hrun Hall).
  assert (all_skipped id (trace st1)) as Hall1.
  { eapply all_skipped_grows; [|exact Hall].
    pose proof (run_packages_grows net no_cache packages st1) as Hg.
    unfold run_packages in Hg. by rewrite Hrun in Hg. }
  destruct (decide (id = pkg_id q)) as [->|Hne].
  - rewrite (process_package_all_skipped _ _ _ _ Hstep Hall1). by rewrite Hr.
  - pose proof (process_package_elsewhere net no_cache st q id Hne) as [Hi _].
    rewrite Hstep in Hi. cbn in Hi. by rewrite Hi.
Qed.

(** The first package of the list with an id the index does not know. *)
Lemma run_packages_bare_header no_cache before p after st st' :
  run_packages net no_cache (before ++ p :: after) st = Ok st' →
  (∀ q, q ∈ before → pkg_id q ≠ pkg_id p) →
  index st !! pkg_id p = None →
  all_skipped (pkg_id p) (trace st') →
  index st' !! pkg_id p = Some (header_of p).
Proof.
  unfold run_packages. revert st.
  induction before as [|q before IH]; intros st Hrun Hfirst Hnone Hall.
  - apply for_each_cons_Ok in Hrun as (st1 & Hstep & Hrun).
    apply (run_packages_keeps_record no_cache after st1 st' _ _ Hrun Hall).
    assert (all_skipped (pkg_id p) (trace st1)) as Hall1.
    { eapply all_skipped_grows; [|exact Hall].
      pose proof (run_packages_grows net no_cache after st1) as Hg.
      unfold run_packages in Hg. by rewrite Hrun in Hg. }
    rewrite (process_package_all_skipped _ _ _ _ Hstep Hall1). by rewrite Hnone.
  - cbn [app] in Hrun. apply for_each_cons_Ok in Hrun as (st1 & Hstep & Hrun).
    apply (IH st1 Hrun); [|
      |done].
    + intros q' Hq'. apply Hfirst. by apply list_elem_of_further.
    + assert (pkg_id p ≠ pkg_id q) as Hne.
      { intros Heq. by apply (Hfirst q); [apply list_elem_of_here|]. }
      pose proof (process_package_elsewhere net no_cache st q _ Hne) as [Hi _].
      rewrite Hstep in Hi. cbn in Hi. by rewrite Hi.
Qed.

End BareHeader.

(** ** Two runs in a row *)

Section FirstRun.

Context (net : network).

Lemma metadata_call_response p tag st ev resp :
  metadata_call net p tag st ev →
  ev_response ev = Some resp →
  ∃ template,
    GIT_PROVIDER_TO_RAW_URL (git_provider p) = Some template ∧
    supported_url (template p tag "metadata.json") = true ∧
    net (trace st) (metadata_request template p tag) = Some resp.
Proof.
  intros (template & Hurl & ->) Hresp. exists template. split; [done|].
  cbn in Hresp. unfold metadata_request.
  destruct (supported_url _); [done|discriminate].
Qed.

(** After the tag loop, a valid tag of the list without a Version Record
    is one whose metadata call was skipped. *)
Lemma tag_loop_unrecorded p tags st st' r' :
  for_each (process_tag net p) tags st = Ok st' →
  index st' !! pkg_id p = Some r' →
  ∀ t, t ∈ tags → is_valid_version t = true → versions r' !! t = None →
       skipped_once net p t.
Proof.
  revert st. induction tags as [|t0 tags IH]; intros st Hloop Hr' t Hin Hvalid Hnone.
  { inversion Hin. }
  apply for_each_cons_Ok in Hloop as (st1 & Hstep & Hloop).
  apply elem_of_cons in Hin as [->|Hin]; [|by eapply IH].
  pose proof (tag_loop_grows net p st1 tags) as Hg. rewrite Hloop in Hg. cbn in Hg.
  assert (∀ s v, grows s st' → version_record (index s) (pkg_id p) t0 = Some v →
                 False) as Hkept.
  { intros s v Hs Hv. apply (grows_records _ _ _ _ _ Hs) in Hv.
    unfold version_record in Hv. rewrite Hr' in Hv. cbn in Hv. congruence. }
  apply process_tag_Ok in Hstep.
  destruct Hstep as [Hrej|r _ Hr [v Hv]|r ev resp _ _ _ Hcall Hresp Hskip
                    |r ev resp metadata n d deps dp compat].
  - congruence.
  - exfalso. apply (Hkept (add_hit st) v Hg).
    unfold version_record. cbn. by rewrite Hr.
  - destruct (metadata_call_response p t0 st ev resp Hcall Hresp)
      as (template & Hurl & Hsup & Hnet).
    by exists template, (trace st), resp.
  - exfalso. eapply (Hkept _ _ Hg).
    unfold version_record. cbn. rewrite lookup_insert_eq. cbn.
    by rewrite lookup_insert_eq.
Qed.

(** What a pass for [p] that reached its end has established. *)
Lemma process_package_passed no_cache st p st' :
  process_package net no_cache st p = Ok st' →
  passed (skipped_once net) p (index st') (cache st').
Proof.
  intros (template & resp & st0 & st1 & entry & tags & st2 & Hurl & Hget & H404 &
          Hupd & Hentry & Htags & Hloop & ->)%process_package_Ok.
  cbn [index cache add_package].
  set (sta := add_header p (if status_code resp =? 304 then add_hit st1 else st1))
    in *.
  assert (cache sta = cache st1) as Hc.
  { subst sta. unfold add_header.
    destruct (status_code resp =? 304); by destruct (index _ !! pkg_id p). }
  destruct (tag_loop_frame net p sta tags) as [Hc2 _ _ _ _].
  rewrite Hloop in Hc2. cbn in Hc2.
  destruct (add_header_lookup p (if status_code resp =? 304 then add_hit st1 else st1))
    as [r Hr]. fold sta in Hr.
  pose proof (tag_loop_grows net p sta tags) as Hg. rewrite Hloop in Hg. cbn in Hg.
  destruct (grows_index _ _ Hg _ _ Hr) as (r' & Hr' & _).
  exists template, entry, tags, r'. repeat split; try done.
  - apply requests_get_inv in Hget as [_ Hresp].
    destruct (supported_url (template p)); [done|discriminate].
  - by rewrite Hc2, Hc.
  - by apply (tag_loop_unrecorded p tags sta st2).
Qed.

Lemma run_packages_elsewhere no_cache packages st st' id :
  run_packages net no_cache packages st = Ok st' →
  id ∉ pkg_id <$> packages →
  index st' !! id = index st !! id ∧ cache st' !! id = cache st !! id.
Proof.
  unfold run_packages. revert st.
  induction packages as [|q packages IH]; intros st; [by intros [= <-]|].
  intros (st1 & Hstep & Hrun)%for_each_cons_Ok Hid.
  rewrite fmap_cons, not_elem_of_cons in Hid. destruct Hid as [Hne Hid].
  destruct (IH st1 Hrun Hid) as [-> ->].
  pose proof (process_package_elsewhere net no_cache st q id Hne) as Hq.
  by rewrite Hstep in Hq.
Qed.

(** After a run over packages with distinct ids, every package is in the
    state its own pass left it in. *)
Lemma run_packages_passed no_cache packages st st' :
  NoDup (pkg_id <$> packages) →
  run_packages net no_cache packages st = Ok st' →
  ∀ p, p ∈ packages → passed (skipped_once net) p (index st') (cache st').
Proof.
  revert st. induction packages as [|q packages IH]; intros st Hnodup Hrun p Hin.
  { inversion Hin. }
  rewrite fmap_cons in Hnodup. apply NoDup_cons in Hnodup as [Hq Hnodup].
  unfold run_packages in Hrun.
  apply for_each_cons_Ok in Hrun as (st1 & Hstep & Hrun).
  apply elem_of_cons in Hin as [->|Hin]; [|by eapply IH].
  destruct (run_packages_elsewhere no_cache packages st1 st' (pkg_id q) Hrun Hq)
    as [Hi Hc].
  destruct (process_package_passed no_cache st q st1 Hstep)
    as (template & e & tags & r & ? & ? & ? & ? & ? & ?).
  exists template, e, tags, r. by rewrite Hi, Hc.
Qed.

(** With caching enabled, the cache file holds the cache whenever the
    cache has changed. *)
Lemma process_package_cache_file st p :
  load_cache (cache_file st) = cache st →
  let st' := final (process_package net false st p) in
  load_cache (cache_file st') = cache st'.
Proof.
  intros Hinv. unfold process_package.
  destruct (GIT_PROVIDER_TO_TAGS_URL (git_provider p)) as [template|]; [|done].
  destruct (requests_get _ _ _ _ _) as [resp st0] eqn:Hget.
  apply requests_get_inv in Hget as [-> _].
  match goal with |- context [log_call ?e _] => set (ev := e) end.
  destruct resp as [resp|]; [|done].
  destruct (quota_exhausted resp) as [|[|]]; try done.
  destruct (status_code resp =? 404); [done|].
  assert (let s := final (update_cache false p resp (log_call ev st)) in
          load_cache (cache_file s) = cache s) as Hupd.
  { unfold update_cache. repeat case_match; done. }
  destruct (update_cache _ _ _ _) as [st1| |]; cbn [and_then final] in *;
    try exact Hupd.
  set (st1' := if status_code resp =? 304 then add_hit st1 else st1).
  assert (load_cache (cache_file st1') = cache st1') as H304.
  { subst st1'. by destruct (status_code resp =? 304). }
  destruct (cache st1' !! pkg_id p) as [entry|]; [|exact H304].
  destruct (tags_of_content (Content entry)) as [|tags]; [exact H304|].
  destruct (tag_loop_frame net p (add_header p st1') tags) as [c f _ _ _].
  assert (load_cache (cache_file (add_header p st1')) = cache (add_header p st1'))
    as Hh.
  { unfold add_header. by destruct (index st1' !! pkg_id p). }
  destruct (for_each _ tags _) as [st2| |]; cbn [and_then final] in *;
    cbn [cache cache_file add_package]; by rewrite f, c.
Qed.

Lemma run_packages_cache_file packages st :
  load_cache (cache_file st) = cache st →
  let st' := final (run_packages net false packages st) in
  load_cache (cache_file st') = cache st'.
Proof.
  unfold run_packages. revert st.
  apply (for_each_final (process_package net false)
           (λ st st', load_cache (cache_file st) = cache st →
                      load_cache (cache_file st') = cache st')); [done|auto|].
  intros st p. apply process_package_cache_file.
Qed.

End FirstRun.

Section SecondRun.

Context (net : network).

Lemma skips_inv resp :
  skips resp = true →
  (status_code resp =? 404) = true ∨
  (status_code resp =? 404) = false ∧
  ∃ metadata, metadata_of resp = Some metadata ∧ py_len metadata = inr O.
Proof.
  unfold skips. destruct (status_code resp =? 404); [by left|]. cbn. intros H.
  right. split; [done|].
  destruct (metadata_of resp) as [metadata|]; [|done].
  exists metadata. split; [done|].
  by destruct (py_len metadata) as [|[|]].
Qed.

(** The loop body on a valid tag without a Version Record whose call is
    answered by a response after which the tag is skipped. *)
Lemma process_tag_skipped p st tag r template resp :
  is_valid_version tag = true →
  index st !! pkg_id p = Some r →
  versions r !! tag = None →
  GIT_PROVIDER_TO_RAW_URL (git_provider p) = Some template →
  supported_url (template p tag "metadata.json") = true →
  net (trace st) (metadata_request template p tag) = Some resp →
  skips resp = true →
  process_tag net p st tag =
    Ok (log_call {| ev_call := FetchMetadata p tag;
                    ev_request := metadata_request template p tag;
                    ev_response := Some resp |} (add_miss st)).
Proof.
  intros Hvalid Hr Hnone Hurl Hsup Hnet Hskip.
  unfold process_tag. rewrite Hvalid, Hr, Hurl. cbn [negb].
  rewrite bool_decide_eq_false_2 by (rewrite Hnone; by intros [? ?]).
  unfold requests_get. rewrite Hsup. cbn [trace add_miss].
  unfold metadata_request in Hnet. rewrite Hnet.
  destruct (skips_inv resp Hskip) as [->|(-> & metadata & -> & ->)]; done.
Qed.

(** The tag loop of a package whose unrecorded valid tags are always
    skipped: the index stays as it is, every tag with a Version Record
    is a hit, every other valid tag a miss and a metadata call. *)
Lemma tag_loop_second p tags st r :
  index st !! pkg_id p = Some r →
  (∀ t, t ∈ tags → is_valid_version t = true → versions r !! t = None →
        always_skipped net p t) →
  ∃ st' new,
    for_each (process_tag net p) tags st = Ok st' ∧
    index st' = index st ∧ cache st' = cache st ∧
    cache_file st' = cache_file st ∧ num_packages st' = num_packages st ∧
    trace st' = trace st ++ new ∧
    Forall (λ ev, is_metadata_call ev = true ∧ second_run_call (index st) ev) new ∧
    misses st' = (misses st + length new)%nat ∧
    hits st' = (hits st + length (List.filter (has_version (index st) p) tags))%nat.
Proof.
  revert st. induction tags as [|t tags IH]; intros st Hr Hall.
  { exists st, []. cbn. rewrite app_nil_r. repeat split; try done; lia. }
  assert (∀ t', t' ∈ tags → is_valid_version t' = true →
                versions r !! t' = None → always_skipped net p t') as Hall'.
  { intros t' Hin. apply Hall. by apply list_elem_of_further. }
  cbn [for_each List.filter]. unfold has_version at 1.
  destruct (is_valid_version t) eqn:Hvalid; cbn [andb].
  - assert (version_record (index st) (pkg_id p) t = versions r !! t) as Hvr.
    { unfold version_record. by rewrite Hr. }
    destruct (versions r !! t) as [v|] eqn:Hv.
    + (* line 134: the tag has a Version Record *)
      assert (process_tag net p st t = Ok (add_hit st)) as ->.
      { unfold process_tag. rewrite Hvalid, Hr. cbn [negb].
        by rewrite bool_decide_eq_true_2 by (rewrite Hv; eauto). }
      cbn [and_then].
      destruct (IH (add_hit st) Hr Hall')
        as (st' & new & -> & Hi & Hc & Hf & Hn & Ht & Hnew & Hm & Hh).
      exists st', new. rewrite bool_decide_eq_true_2 by (rewrite Hvr; eauto).
      cbn in *. repeat split; try done. lia.
    + (* the tag is fetched again and skipped again *)
      destruct (Hall t (list_elem_of_here _ _) Hvalid Hv)
        as (template & Hurl & Hsup & Hnet).
      destruct (Hnet (trace st)) as (resp & Hresp & Hskip).
      rewrite (process_tag_skipped p st t r template resp) by done.
      cbn [and_then].
      match goal with |- context [log_call ?e _] => set (ev := e) end.
      destruct (IH (log_call ev (add_miss st)) Hr Hall')
        as (st' & new & -> & Hi & Hc & Hf & Hn & Ht & Hnew & Hm & Hh).
      exists st', (ev :: new).
      rewrite bool_decide_eq_false_2 by (rewrite Hvr; by intros [? ?]).
      cbn in *. repeat split; try done.
      * by rewrite Ht, <- app_assoc.
      * apply Forall_cons. split; [|done]. split; [done|].
        unfold second_run_call. cbn. repeat split; try done. eauto.
      * lia.
  - assert (process_tag net p st t = Ok st) as ->.
    { unfold process_tag. by rewrite Hvalid. }
    cbn [and_then]. apply (IH st Hr Hall').
Qed.

(** A pass of the second run. *)
Lemma second_pass packages p st :
  p ∈ packages →
  not_modified net (cache st) packages →
  passed (always_skipped net) p (index st) (cache st) →
  ∃ st' new,
    process_package net false st p = Ok st' ∧
    index st' = index st ∧ cache st' = cache st ∧
    cache_file st' = cache_file st ∧
    trace st' = trace st ++ new ∧
    Forall (second_run_call (index st)) new ∧
    misses st' = (misses st + length (List.filter is_metadata_call new))%nat ∧
    hits st' =
      (hits st + 1 + length (recorded_tags (index st) (cache st) p))%nat.
Proof.
  intros Hin Hnm (template & e & tags & r & Hurl & Hsup & He & Htags & Hr & Hall).
  destruct (Hnm p e template (trace st) Hin He Hurl) as (resp & Hresp & H304).
  unfold process_package. rewrite Hurl, He. unfold requests_get. rewrite Hsup.
  cbn [conditional_headers]. rewrite Hresp.
  unfold quota_exhausted, update_cache. rewrite H304.
  cbn [Z.eqb Pos.eqb and_then cache add_hit log_call].
  rewrite He, Htags.
  match goal with |- context [log_call ?e _] => set (ev := e) end.
  assert (add_header p (add_hit (log_call ev st)) = add_hit (log_call ev st)) as ->.
  { unfold add_header. cbn. by rewrite Hr. }
  destruct (tag_loop_second p tags (add_hit (log_call ev st)) r Hr Hall)
    as (st' & new & -> & Hi & Hc & Hf & Hn & Ht & Hnew & Hm & Hh).
  cbn [and_then]. exists (add_package st'), (ev :: new).
  cbn in *. repeat split; try done.
  - by rewrite Ht, <- app_assoc.
  - apply Forall_cons. split.
    + unfold second_run_call. cbn. eauto.
    + eapply Forall_impl; [exact Hnew|]. by intros ? [_ ?].
  - rewrite Hm. f_equal. clear -Hnew. induction Hnew as [|x l [Hx _] _ IH]; [done|].
    cbn. rewrite Hx. cbn. by rewrite IH.
  - rewrite Hh. unfold recorded_tags, cached_tags. rewrite He, Htags. lia.
Qed.

(** The second run: every pass is a second pass. *)
Lemma second_run packages :
  ∀ all st,
  (∀ p, p ∈ packages → p ∈ all) →
  not_modified net (cache st) all →
  (∀ p, p ∈ packages → passed (always_skipped net) p (index st) (cache st)) →
  ∃ st' new,
    run_packages net false packages st = Ok st' ∧
    index st' = index st ∧ cache st' = cache st ∧
    cache_file st' = cache_file st ∧
    trace st' = trace st ++ new ∧
    Forall (second_run_call (index st)) new ∧
    misses st' = (misses st + length (List.filter is_metadata_call new))%nat ∧
    hits st' =
      (hits st + length packages +
       length (flat_map (recorded_tags (index st) (cache st)) packages))%nat.
Proof.
  induction packages as [|p packages IH]; intros all st Hsub Hnm Hpassed.
  { exists st, []. cbn. rewrite app_nil_r. repeat split; try done; lia. }
  destruct (second_pass all p st) as (st1 & new1 & Hstep & Hi & Hc & Hf & Ht & Hnew &
                                     Hm & Hh);
    [apply Hsub, list_elem_of_here|done|apply Hpassed, list_elem_of_here|].
  destruct (IH all st1) as (st' & new2 & Hrun & Hi2 & Hc2 & Hf2 & Ht2 & Hnew2 &
                            Hm2 & Hh2).
  { intros q Hq. by apply Hsub, list_elem_of_further. }
  { by rewrite Hc. }
  { intros q Hq. rewrite Hi, Hc. by apply Hpassed, list_elem_of_further. }
  exists st', (new1 ++ new2). unfold run_packages in *. cbn [for_each].
  rewrite Hstep. cbn [and_then]. rewrite Hi, Hc in *.
  repeat split; try congruence.
  - by rewrite Ht2, Ht, <- app_assoc.
  - by apply Forall_app.
  - rewrite Hm2, Hm, List.filter_app, length_app. lia.
  - rewrite Hh2, Hh. cbn [flat_map length]. rewrite length_app. lia.
Qed.

End SecondRun.

(** ** The claims *)

(** C2, as amended.  A Version Record that the index holds is kept as it
    is, and no metadata is fetched for its tag: from any state on to the
    end of the tag loop of a package ([1]) and to the end of the run
    ([2], with or without [--no-cache]); and from the index file that a
    run with caching enabled loads to the index file it leaves, whether
    it rewrites it or not ([3]). *)
Theorem version_records_are_kept (net : network) (id tag : string)
    (v : version_info) :
  (∀ p tags st,
     version_record (index st) id tag = Some v →
     let st' := final (for_each (process_tag net p) tags st) in
     version_record (index st') id tag = Some v ∧
     ∃ new, trace st' = trace st ++ new ∧
       ∀ ev q, ev ∈ new → pkg_id q = id → ev_call ev ≠ FetchMetadata q tag) ∧
  (∀ no_cache packages st,
     version_record (index st) id tag = Some v →
     let st' := final (run_packages net no_cache packages st) in
     version_record (index st') id tag = Some v ∧
     ∃ new, trace st' = trace st ++ new ∧
       ∀ ev q, ev ∈ new → pkg_id q = id → ev_call ev ≠ FetchMetadata q tag) ∧
  (∀ packages d i,
     index_json d = Holds i →
     version_record i id tag = Some v →
     let run := main net false packages d in
     (∃ i', index_json run.2 = Holds i' ∧ version_record i' id tag = Some v) ∧
     ∀ ev q, ev ∈ trace (final run.1) → pkg_id q = id →
       ev_call ev ≠ FetchMetadata q tag).
Proof.
  assert (∀ st st', grows st st' →
     version_record (index st) id tag = Some v →
     version_record (index st') id tag = Some v ∧
     ∃ new, trace st' = trace st ++ new ∧
       ∀ ev q, ev ∈ new → pkg_id q = id → ev_call ev ≠ FetchMetadata q tag)
    as Hgrows.
  { intros st st' Hg Hv. split; [by eapply grows_records|].
    destruct (grows_trace _ _ Hg) as (new & Ht & Hnew). exists new.
    split; [done|]. intros ev q Hin <- Hcall.
    destruct (Hnew ev q tag Hin Hcall) as [_ Hnone]. congruence. }
  split; [|split].
  - intros p tags st Hv. apply Hgrows; [apply tag_loop_grows|done].
  - intros no_cache packages st Hv. apply Hgrows; [apply run_packages_grows|done].
  - intros packages d i Hi Hv.
    destruct (initial_state_index d i Hi) as (st & Hst & <-).
    pose proof (initial_state_trace _ _ _ Hst) as Hnil.
    unfold main. rewrite Hst. cbn [fst snd].
    destruct (Hgrows st _ (run_packages_grows net false packages st) Hv)
      as (Hv' & new & Ht & Hnew).
    split.
    + unfold disk_after. cbn [index_json].
      destruct (run_packages net false packages st) as [st'| |]; cbn [final] in *;
        eauto.
    + rewrite Ht, Hnil. cbn. exact Hnew.
Qed.

(** C4.  A tag listing answered with status 404 ends the run with exit
    code 2: the call is the last one the process makes, and the index
    file is left as it was. *)
Theorem listing_not_found_exits_2 (net : network) (no_cache : bool)
    (packages : list package) (d : disk) (ev : event) (p : package)
    (resp : response) :
  let run := main net no_cache packages d in
  ev ∈ trace (final run.1) →
  ev_call ev = ListTags p →
  ev_response ev = Some resp →
  status_code resp = 404 →
  exit_code run.1 = 2 ∧
  (∃ before, trace (final run.1) = before ++ [ev]) ∧
  index_json run.2 = index_json d.
Proof.
  intros run Hin Hcall Hresp H404. subst run.
  destruct (main_trace net no_cache packages d) as [[Hnil _]|(st & Hst & Hnil & Hrun)].
  { rewrite Hnil in Hin. inversion Hin. }
  unfold main in *. rewrite Hst in *. cbn [fst snd] in *.
  destruct (run_packages_404 net no_cache packages st) as (new & Ht & Hnew).
  rewrite Ht, Hnil in Hin. cbn in Hin.
  destruct (Hnew ev p resp Hin Hcall Hresp H404) as [Hexit (before & Hlast)].
  rewrite Hnil in Hlast. cbn in Hlast.
  split; [by rewrite Hexit|]. split; [eauto|].
  unfold disk_after. cbn [index_json]. by rewrite Hexit.
Qed.

(** C9.  A tag that the version filter rejects is passed over by the
    loop body with the state untouched, and no run ever makes a metadata
    call for it. *)
Theorem rejected_tag_is_never_fetched (net : network) (tag : string) :
  is_valid_version tag = false →
  (∀ p st, process_tag net p st tag = Ok st) ∧
  (∀ no_cache packages d ev p,
     ev ∈ trace (final (main net no_cache packages d).1) →
     ev_call ev ≠ FetchMetadata p tag).
Proof.
  intros Hrej. split.
  - intros p st. unfold process_tag. by rewrite Hrej.
  - intros no_cache packages d ev p Hin Hcall.
    destruct (main_trace net no_cache packages d)
      as [[Hnil _]|(st & Hst & Hnil & Hrun)].
    { rewrite Hnil in Hin. inversion Hin. }
    rewrite Hrun in Hin.
    destruct (grows_trace _ _ (run_packages_grows net no_cache packages st))
      as (new & Ht & Hnew).
    rewrite Ht, Hnil in Hin. cbn in Hin.
    destruct (Hnew ev p tag Hin Hcall) as [Hvalid _]. congruence.
Qed.

Section Recording.

Context (net : network) (p : package).

Lemma compatibility_of_default metadata compat :
  compatibility_of metadata = inr compat →
  no_compose_entry metadata →
  compat = NO_COMPATIBILITY_DATA.
Proof.
  unfold compatibility_of. intros Hc [Hno|(declared & Hget & Hno)].
  - rewrite Hno in Hc. by injection Hc.
  - destruct (py_contains "compatibility" metadata) as [|[|]]; [done| |by injection Hc].
    rewrite Hget, Hno in Hc. by injection Hc.
Qed.

(** A pass through the loop body that adds the Version Record of its tag
    is the recording step, and the record is the one built from the
    fetched document. *)
Lemma process_tag_records st tag st' r v :
  process_tag net p st tag = Ok st' →
  index st !! pkg_id p = Some r →
  versions r !! tag = None →
  version_record (index st') (pkg_id p) tag = Some v →
  ∃ ev resp metadata n d deps,
    metadata_call net p tag st ev ∧
    ev_response ev = Some resp ∧
    status_code resp = 200 ∧
    json_body resp = Some metadata ∧
    py_getitem metadata "name" = inr n ∧
    py_getitem metadata "description" = inr d ∧
    py_getitem metadata "dependencies" = inr deps ∧
    py_getitem deps "packages" = inr (dependencies v) ∧
    compatibility_of metadata = inr (compatibility v) ∧
    st' = set_index
            (<[pkg_id p := {| git := git r;
                              versions := <[tag := v]> (versions r);
                              rec_icon := rec_icon r;
                              name := Some n;
                              description := Some d |}]> (index st))
            (log_call ev (add_miss st)).
Proof.
  intros Hok Hr Hnone Hv. apply process_tag_Ok in Hok.
  assert (version_record (index st) (pkg_id p) tag = None) as Hold.
  { unfold version_record. by rewrite Hr. }
  destruct Hok as [Hrej|r0 _ Hr0 Hin|r0 ev resp _ _ _ _ _ _
                   |r0 ev resp metadata n d deps dp compat _ Hr0 _ Hcall Hresp _
                      H200 Hbody Hn Hd Hdeps Hdp Hcompat].
  - congruence.
  - cbn in Hv. congruence.
  - cbn in Hv. congruence.
  - assert (r0 = r) as -> by congruence.
    unfold version_record in Hv. cbn in Hv.
    rewrite lookup_insert_eq in Hv. cbn in Hv. rewrite lookup_insert_eq in Hv.
    injection Hv as <-.
    exists ev, resp, metadata, n, d, deps. done.
Qed.

End Recording.

(** C7.  When a pass through the loop body stores the Version Record of
    its tag, the record comes from a document fetched with status 200
    and decoded; if that document has no [compatibility] field, or its
    [compatibility] has no [compose] entry, the compatibility of the
    record is exactly the default range, minimum v0.0.0 and maximum
    v0.9.9 for [compose]. *)
Theorem default_compatibility (net : network) (p : package) (st st' : state)
    (tag : string) (v : version_info) :
  process_tag net p st tag = Ok st' →
  version_record (index st) (pkg_id p) tag = None →
  version_record (index st') (pkg_id p) tag = Some v →
  ∃ ev resp metadata,
    trace st' = trace st ++ [ev] ∧
    ev_call ev = FetchMetadata p tag ∧
    ev_response ev = Some resp ∧
    status_code resp = 200 ∧
    json_body resp = Some metadata ∧
    (no_compose_entry metadata →
     compatibility v =
       JObj {[ "compose" :=
                 JObj (<["minimum" := JStr "v0.0.0"]>
                         {[ "maximum" := JStr "v0.9.9" ]}) ]}).
Proof.
  intros Hok Hold Hnew.
  destruct (index st !! pkg_id p) as [r|] eqn:Hr.
  - assert (versions r !! tag = None) as Hnone.
    { unfold version_record in Hold. by rewrite Hr in Hold. }
    destruct (process_tag_records net p st tag st' r v Hok Hr Hnone Hnew)
      as (ev & resp & metadata & n & d & deps & Hcall & Hresp & H200 & Hbody &
          _ & _ & _ & _ & Hcompat & ->).
    exists ev, resp, metadata. repeat split; try done.
    + destruct Hcall as (template & _ & ->). done.
    + intros Hno. by apply (compatibility_of_default metadata).
  - exfalso. revert Hok. unfold process_tag. rewrite Hr.
    destruct (negb (is_valid_version tag)); [|discriminate].
    intros [= <-]. congruence.
Qed.

(** C8, as amended.  When a pass through the loop body stores the
    Version Record of its tag, the Package Record gets the [name] and
    the [description] of the fetched document and the new Version
    Record; its [git] coordinates, its [icon] and its other Version
    Records stay as they were. *)
Theorem record_sets_name_and_description (net : network) (p : package)
    (st st' : state) (tag : string) (r : package_record) (v : version_info) :
  process_tag net p st tag = Ok st' →
  index st !! pkg_id p = Some r →
  versions r !! tag = None →
  version_record (index st') (pkg_id p) tag = Some v →
  ∃ ev resp metadata n d,
    trace st' = trace st ++ [ev] ∧
    ev_call ev = FetchMetadata p tag ∧
    ev_response ev = Some resp ∧
    json_body resp = Some metadata ∧
    py_getitem metadata "name" = inr n ∧
    py_getitem metadata "description" = inr d ∧
    index st' !! pkg_id p =
      Some {| git := git r;
              versions := <[tag := v]> (versions r);
              rec_icon := rec_icon r;
              name := Some n;
              description := Some d |} ∧
    ∀ id, id ≠ pkg_id p → index st' !! id = index st !! id.
Proof.
  intros Hok Hr Hnone Hnew.
  destruct (process_tag_records net p st tag st' r v Hok Hr Hnone Hnew)
    as (ev & resp & metadata & n & d & deps & Hcall & Hresp & H200 & Hbody &
        Hn & Hd & _ & _ & _ & ->).
  exists ev, resp, metadata, n, d. repeat split; try done.
  - destruct Hcall as (template & _ & ->). done.
  - cbn. by rewrite lookup_insert_eq.
  - intros id Hid. cbn. by rewrite lookup_insert_ne.
Qed.

(** C10, as amended.  Take the first package of the list with a given id,
    an id that the index the run starts from does not know.  If the run
    reaches its end and every metadata call made for that id was
    answered by a response after which the tag is skipped (or no such
    call was made), the index file holds for this id the header built
    from the package: its git coordinates, its icon, no Version Record,
    no name and no description. *)
Theorem bare_header_is_persisted (net : network) (no_cache : bool)
    (before after : list package) (p : package) (d : disk) (st' : state) :
  let run := main net no_cache (before ++ p :: after) d in
  run.1 = Ok st' →
  (∀ q, q ∈ before → pkg_id q ≠ pkg_id p) →
  (no_cache = true ∨ index_json d = Missing ∨
   ∃ i, index_json d = Holds i ∧ i !! pkg_id p = None) →
  all_skipped (pkg_id p) (trace st') →
  ∃ i, index_json run.2 = Holds i ∧
       i !! pkg_id p =
         Some {| git := {| provider := git_provider p;
                           owner := git_owner p;
                           repository := git_repository p |};
                 versions := ∅;
                 rec_icon := icon p;
                 name := None;
                 description := None |}.
Proof.
  intros run Hok Hfirst Hnew Hall. subst run. unfold main in *.
  destruct (initial_state no_cache d) as [e|st] eqn:Hst; [discriminate|].
  cbn [fst snd] in *. rewrite Hok. cbn [disk_after index_json].
  exists (index st'). split; [done|].
  apply (run_packages_bare_header net no_cache before p after st st' Hok Hfirst);
    [|done].
  unfold initial_state in Hst.
  destruct no_cache; [injection Hst as <-; done|].
  destruct Hnew as [[=]|[Hmiss|(i & Hi & Hnone)]].
  - rewrite Hmiss in Hst. by injection Hst as <-.
  - rewrite Hi in Hst. by injection Hst as <-.
Qed.

Section TwoRuns.

Context (net1 net2 : network) (packages : list package).

Lemma skipped_once_always p tag :
  p ∈ packages →
  same_metadata net1 net2 packages →
  skipped_once net1 p tag →
  always_skipped net2 p tag.
Proof.
  intros Hin Hsame (template & h & resp & Hurl & Hsup & Hnet & Hskip).
  exists template. repeat split; try done. intros h2. exists resp.
  split; [|done]. by rewrite (Hsame p tag template h h2).
Qed.

Lemma passed_second p i c :
  p ∈ packages →
  same_metadata net1 net2 packages →
  passed (skipped_once net1) p i c →
  passed (always_skipped net2) p i c.
Proof.
  intros Hin Hsame (template & e & tags & r & ? & ? & ? & ? & ? & Hall).
  exists template, e, tags, r. repeat split; try done.
  intros t Ht Hvalid Hnone. apply skipped_once_always; auto.
Qed.

(** The state a run with caching enabled starts from when the run
    before it reached its end. *)
Lemma initial_state_after d st1 :
  initial_state false (disk_after d (Ok st1)) =
    inr {| cache := load_cache (cache_file st1); index := index st1;
           hits := 0; misses := 0; num_packages := 0;
           cache_file := cache_file st1; trace := [] |}.
Proof. reflexivity. Qed.

End TwoRuns.

(** C1, as amended.  Run the engine twice with caching enabled over
    packages with distinct ids, the first run reaching its end.  If in
    the second run the provider reports every tag list as not modified
    against the cached validation token and answers the metadata
    requests as before, the second run reaches its end and leaves both
    files as the first run left them: the Index Document is identical.
    Every call of the second run is a tag listing answered with 304 or a
    metadata call for a valid tag that has no Version Record, skipped
    again; every tag listing and every valid tag with a Version Record
    counts as one cache hit, and the only misses are those metadata
    calls. *)
Theorem second_run_changes_nothing (net1 net2 : network)
    (packages : list package) (d : disk) (st1 : state) :
  let run1 := main net1 false packages d in
  run1.1 = Ok st1 →
  NoDup (pkg_id <$> packages) →
  not_modified net2 (cache st1) packages →
  same_metadata net1 net2 packages →
  let run2 := main net2 false packages run1.2 in
  ∃ st2,
    run2.1 = Ok st2 ∧
    run2.2 = run1.2 ∧
    index_json run2.2 = Holds (index st1) ∧
    Forall (second_run_call (index st1)) (trace st2) ∧
    hits st2 =
      (length packages +
       length (flat_map (recorded_tags (index st1) (cache st1)) packages))%nat ∧
    misses st2 = length (List.filter is_metadata_call (trace st2)).
Proof.
  intros run1 Hok Hnodup Hnm Hsame run2. subst run1 run2. unfold main in *.
  destruct (initial_state false d) as [e|st0] eqn:Hst0; [discriminate|].
  cbn [fst snd] in *. rewrite Hok. cbn [disk_after final index_json cache_json].
  assert (load_cache (cache_file st1) = cache st1) as Hfile.
  { pose proof (run_packages_cache_file net1 packages st0) as Hinv.
    rewrite Hok in Hinv. apply Hinv.
    unfold initial_state in Hst0. cbn in Hst0.
    destruct (index_json d); try discriminate; by injection Hst0 as <-. }
  rewrite initial_state_after, Hfile.
  set (st := {| cache := cache st1; index := index st1; hits := 0; misses := 0;
                num_packages := 0; cache_file := cache_file st1; trace := [] |}).
  destruct (second_run net2 packages packages st) as
    (st2 & new & Hrun & Hi & Hc & Hf & Ht & Hnew & Hm & Hh); [done|done| |].
  { intros p Hin. apply (passed_second net1 net2 packages); [done|done|].
    by apply (run_packages_passed net1 false packages st0 st1). }
  exists st2. rewrite Hrun. unfold disk_after.
  cbn [fst snd final index_json cache_json] in *.
  rewrite Hi, Hf. split_and!; try done.
  - by rewrite Ht.
  - by rewrite Hm, Ht.
Qed.

(** ** The version filter on the inputs of the specification *)

Section VersionFilterExamples.

Lemma version_filter_examples :
  is_valid_version "v1.2.3" = true ∧
  is_valid_version "v1.2" = false ∧
  is_valid_version "1.2.3" = false ∧
  is_valid_version "v1.2.3-beta" = false.
Proof. repeat split; reflexivity. Qed.

(** The filter accepts every version. *)
Lemma is_version_accepted tag : is_version tag → is_valid_version tag = true.
Proof.
  intros (a & b & c & Ha & Hb & Hc & ->). apply is_valid_version_spec.
  exists a, b, c. auto.
Qed.

Lemma has_newline_app a b :
  has_newline (a +:+ b) = has_newline a || has_newline b.
Proof.
  induction a as [|x a IH]; [done|].
  rewrite append_cons. cbn. by rewrite IH, orb_assoc.
Qed.

Lemma digit_not_newline c : Re.is_digit c = true → Ascii.eqb c Re.newline = false.
Proof.
  destruct (Ascii.eqb c Re.newline) eqn:E; [|done].
  apply Ascii.eqb_eq in E as ->. discriminate.
Qed.

Lemma all_digits_no_newline s : all_digits s = true → has_newline s = false.
Proof.
  induction s as [|c s IH]; [done|]. cbn.
  intros [Hc Hs]%andb_true_iff. by rewrite (digit_not_newline c Hc), IH.
Qed.

Lemma decimal_no_newline s : decimal s = true → has_newline s = false.
Proof. destruct s; [done|]. apply all_digits_no_newline. Qed.

Lemma is_version_no_newline tag : is_version tag → has_newline tag = false.
Proof.
  intros (a & b & c & Ha & Hb & Hc & ->). unfold version_string.
  rewrite !has_newline_app.
  by rewrite (decimal_no_newline a), (decimal_no_newline b),
             (decimal_no_newline c).
Qed.

End VersionFilterExamples.

(** C6.  The filter accepts a version followed by a newline, which is not
    [v] followed by three dot-separated decimal integers and nothing
    else. *)
Theorem version_filter_accepts_trailing_newline :
  is_valid_version ("v1.2.3" +:+ nl) = true ∧ ¬ is_version ("v1.2.3" +:+ nl).
Proof.
  split; [reflexivity|]. intros H%is_version_no_newline. discriminate.
Qed.

(** ** The quota check *)

Section Quota.

(** A header is a string and never equals the integer 0: the check of
    line 91 does not fire. *)
Lemma quota_check_never_fires (r : response) : quota_exhausted r ≠ inr true.
Proof.
  unfold quota_exhausted. destruct (status_code r =? 401); [|discriminate].
  destruct (headers r !! "X-RateLimit-Remaining"); discriminate.
Qed.

Lemma process_package_no_exit_1 net no_cache st p st' :
  process_package net no_cache st p ≠ Exit 1 st'.
Proof.
  unfold process_package.
  destruct (GIT_PROVIDER_TO_TAGS_URL (git_provider p)); [|discriminate].
  destruct (requests_get _ _ _ _ _) as [[resp|] st0]; [|discriminate].
  pose proof (quota_check_never_fires resp) as Hq.
  destruct (quota_exhausted resp) as [|[|]]; [discriminate|done|].
  destruct (status_code resp =? 404); [discriminate|].
  pose proof (update_cache_no_exit no_cache p resp st0) as Hupd.
  destruct (update_cache _ _ _ _) as [st1| |]; cbn [and_then];
    [|intros E; by apply Hupd in E|discriminate].
  destruct (cache _ !! pkg_id p) as [entry|]; [|discriminate].
  destruct (tags_of_content _) as [|tags]; [discriminate|].
  match goal with |- context [for_each ?b ?l ?s] =>
    pose proof (tag_loop_no_exit net p l s) as Hloop;
    destruct (for_each b l s) as [st2| |]
  end; cbn [and_then]; [discriminate| |discriminate].
  intros E. by apply Hloop in E.
Qed.

(** No run ends with [sys.exit(1)]. *)
Lemma main_no_exit_1 net no_cache packages d st' :
  (main net no_cache packages d).1 ≠ Exit 1 st'.
Proof.
  unfold main. destruct (initial_state no_cache d) as [|st]; [discriminate|].
  cbn [fst]. unfold run_packages. revert st'. revert packages st.
  apply (for_each_result (process_package net no_cache)
           (λ st r, ∀ st', r ≠ Exit 1 st') ).
  - discriminate.
  - auto.
  - intros st p st'. apply process_package_no_exit_1.
Qed.

End Quota.

(** C3.  The index and the cache hold [demo] from an earlier run; the
    provider answers its tag listing with status 401 and a remaining
    rate limit of zero.  The run does not stop: it goes through the
    cached tags, then through the next package, and ends with exit
    code 0. *)
Theorem quota_exhausted_goes_unnoticed :
  let run := main exhausted_provider false [demo; other] first_run.2 in
  (∃ ev rest resp,
     trace (final run.1) = ev :: rest ∧ ev_call ev = ListTags demo ∧
     ev_response ev = Some resp ∧ status_code resp = 401 ∧
     headers resp !! "X-RateLimit-Remaining" = Some "0") ∧
  calls run.1 = [ListTags demo; FetchMetadata demo "v1.0.1"; ListTags other] ∧
  (∃ st, run.1 = Ok st ∧ num_packages st = 2%nat) ∧
  exit_code run.1 = 0.
Proof.
  cbv zeta. split; [|split; [|split]].
  - eexists _, _, _. split; [vm_compute; reflexivity|]. repeat split.
  - vm_compute. reflexivity.
  - eexists. split; [vm_compute; reflexivity|]. reflexivity.
  - vm_compute. reflexivity.
Qed.

(** ** A metadata file that does not decode *)

Section Undecodable.

(** Status 200 and a body that is not JSON: [response.json()] raises. *)
Lemma process_tag_undecodable net p st tag r template resp :
  is_valid_version tag = true →
  index st !! pkg_id p = Some r →
  versions r !! tag = None →
  GIT_PROVIDER_TO_RAW_URL (git_provider p) = Some template →
  supported_url (template p tag "metadata.json") = true →
  net (trace st) (metadata_request template p tag) = Some resp →
  status_code resp = 200 →
  json_body resp = None →
  ∃ st', process_tag net p st tag = Raise JSONDecodeError st'.
Proof.
  intros Hvalid Hr Hnone Hurl Hsup Hnet H200 Hbody.
  unfold process_tag. rewrite Hvalid, Hr, Hurl. cbn [negb].
  rewrite bool_decide_eq_false_2 by (rewrite Hnone; by intros [? ?]).
  unfold requests_get. rewrite Hsup. cbn [trace add_miss].
  unfold metadata_request in Hnet. rewrite Hnet.
  unfold metadata_of. rewrite H200, Hbody. cbn. eauto.
Qed.

End Undecodable.

(** C5.  The metadata file of v1.0.0 is answered with status 200 and a
    body that does not decode.  The run ends there with an uncaught
    exception and exit code 1: v1.0.1 is never looked at and the index
    file is not written. *)
Theorem undecodable_metadata_ends_the_run :
  let run := main garbled_provider false [demo] no_files in
  (∃ st, run.1 = Raise JSONDecodeError st) ∧
  exit_code run.1 = 1 ∧
  calls run.1 = [ListTags demo; FetchMetadata demo "v1.0.0"] ∧
  statuses run.1 = [Some 200; Some 200] ∧
  index_json run.2 = Missing.
Proof.
  cbv zeta. split_and!.
  - eexists. vm_compute. reflexivity.
  - vm_compute. reflexivity.
  - vm_compute. reflexivity.
  - vm_compute. reflexivity.
  - vm_compute. reflexivity.
Qed.

(** ** The claims on concrete runs *)

(** C1 as stated fails.  The provider is the same in both runs and
    answers the second tag listing with 304; the index is identical; yet
    the second run fetches the metadata of v1.0.1 again, a valid tag
    that has no Version Record because its fetch failed in the first
    run. *)
Lemma second_run_fetches_again :
  let run2 := main demo_provider false [demo] first_run.2 in
  exit_code first_run.1 = 0 ∧
  exit_code run2.1 = 0 ∧
  index_json run2.2 = index_json first_run.2 ∧
  statuses run2.1 = [Some 304; Some 404] ∧
  calls run2.1 = [ListTags demo; FetchMetadata demo "v1.0.1"] ∧
  is_valid_version "v1.0.1" = true ∧
  misses (final run2.1) = 1%nat.
Proof. cbv zeta. split_and!; vm_compute; reflexivity. Qed.

Lemma demo_provider_not_modified :
  not_modified demo_provider (cache (final first_run.1)) [demo].
Proof.
  intros p e template h ->%list_elem_of_singleton He Hurl.
  cbn in Hurl. injection Hurl as <-.
  vm_compute in He. injection He as <-.
  eexists. split; [vm_compute; reflexivity|reflexivity].
Defined.

(** The two runs against [demo_provider] meet the conditions of C1 as
    amended. *)
Lemma second_run_changes_nothing_witness :
  let run1 := main demo_provider false [demo] no_files in
  let run2 := main demo_provider false [demo] run1.2 in
  ∃ st2,
    run2.1 = Ok st2 ∧
    run2.2 = run1.2 ∧
    index_json run2.2 = Holds (index (final run1.1)) ∧
    Forall (second_run_call (index (final run1.1))) (trace st2) ∧
    hits st2 =
      (length [demo] +
       length (flat_map (recorded_tags (index (final run1.1))
                           (cache (final run1.1))) [demo]))%nat ∧
    misses st2 = length (List.filter is_metadata_call (trace st2)).
Proof.
  apply (second_run_changes_nothing demo_provider demo_provider [demo] no_files
           (final first_run.1)).
  - vm_compute. reflexivity.
  - apply NoDup_singleton.
  - apply demo_provider_not_modified.
  - intros p tag template h1 h2 _ _. reflexivity.
Defined.

(** C2 as stated fails.  The first run stored the Version Record of
    v1.0.0; a later run with [--no-cache] starts from an empty index,
    fetches the metadata of v1.0.0 again and, the fetch failing, writes
    an index without that record. *)
Lemma no_cache_run_drops_version_record :
  let run2 := main broken_provider true [demo] first_run.2 in
  (persisted first_run.2 "demoapp" ≫= λ r, versions r !! "v1.0.0")
    = Some default_version ∧
  calls run2.1 = [ListTags demo; FetchMetadata demo "v1.0.0"] ∧
  exit_code run2.1 = 0 ∧
  (persisted run2.2 "demoapp" ≫= λ r, versions r !! "v1.0.0") = None.
Proof. cbv zeta. split_and!; vm_compute; reflexivity. Qed.

(** A second run with caching enabled keeps the record of v1.0.0 and
    makes no call for it. *)
Lemma version_records_are_kept_witness :
  let run := main demo_provider false [demo] first_run.2 in
  (∃ i', index_json run.2 = Holds i' ∧
         version_record i' "demoapp" "v1.0.0" = Some default_version) ∧
  ∀ ev q, ev ∈ trace (final run.1) → pkg_id q = "demoapp" →
    ev_call ev ≠ FetchMetadata q "v1.0.0".
Proof.
  apply (proj2 (proj2 (version_records_are_kept demo_provider "demoapp" "v1.0.0"
                         default_version))
           [demo] first_run.2 (index (final first_run.1))).
  - vm_compute. reflexivity.
  - vm_compute. reflexivity.
Defined.

(** The first package of the list has no repository: the run stops there
    and the second package is never looked at. *)
Lemma listing_not_found_exits_2_witness :
  let run := main empty_provider false [other; demo] no_files in
  let ev := {| ev_call := ListTags other;
               ev_request := {| url := other_tags_url; req_headers := ∅ |};
               ev_response := Some (answer 404 ∅ None) |} in
  exit_code run.1 = 2 ∧
  (∃ before, trace (final run.1) = before ++ [ev]) ∧
  index_json run.2 = index_json no_files.
Proof.
  cbv zeta.
  apply (listing_not_found_exits_2 empty_provider false [other; demo] no_files
           _ other (answer 404 ∅ None)).
  - vm_compute. apply list_elem_of_here.
  - reflexivity.
  - reflexivity.
  - reflexivity.
Defined.

Lemma demo_metadata_no_compose : no_compose_entry demo_metadata.
Proof. left. vm_compute. reflexivity. Qed.

(** The document of [demo] at v1.0.0 declares no compatibility. *)
Lemma default_compatibility_witness :
  let st' := final (process_tag demo_provider demo at_header "v1.0.0") in
  ∃ ev resp metadata,
    trace st' = trace at_header ++ [ev] ∧
    ev_call ev = FetchMetadata demo "v1.0.0" ∧
    ev_response ev = Some resp ∧
    status_code resp = 200 ∧
    json_body resp = Some metadata ∧
    (no_compose_entry metadata →
     compatibility default_version =
       JObj {[ "compose" :=
                 JObj (<["minimum" := JStr "v0.0.0"]>
                         {[ "maximum" := JStr "v0.9.9" ]}) ]}).
Proof.
  apply (default_compatibility demo_provider demo at_header _ "v1.0.0"
           default_version).
  - vm_compute. reflexivity.
  - vm_compute. reflexivity.
  - vm_compute. reflexivity.
Defined.

(** C8 as stated fails.  The fetched document carries an [icon] and
    [git] coordinates of its own; the Version Record is stored, and the
    Package Record still has the icon and the coordinates of the
    package descriptor. *)
Lemma record_keeps_git_and_icon :
  ∃ st' r,
    process_tag rich_provider demo at_header "v1.0.0" = Ok st' ∧
    ((λ ev, ev_response ev ≫= json_body) <$> trace st') = [Some rich_metadata] ∧
    index st' !! "demoapp" = Some r ∧
    is_Some (versions r !! "v1.0.0") ∧
    name r = Some (JStr "Demo") ∧
    py_getitem rich_metadata "icon" = inr (JStr "new.png") ∧
    rec_icon r = "icon.png" ∧
    py_getitem rich_metadata "git" = inr (JObj {[ "owner" := JStr "someone-else" ]}) ∧
    git r = {| provider := "github.com"; owner := "afdaniele";
               repository := "demoapp" |}.
Proof.
  eexists _, _. split; [vm_compute; reflexivity|].
  split; [vm_compute; reflexivity|].
  split; [vm_compute; reflexivity|].
  split; [eexists; vm_compute; reflexivity|].
  split_and!; vm_compute; reflexivity.
Qed.

(** A document with an icon and git coordinates of its own is recorded. *)
Lemma record_sets_name_and_description_witness :
  let st' := final (process_tag rich_provider demo at_header "v1.0.0") in
  let v := {| dependencies := JObj ∅; compatibility := NO_COMPATIBILITY_DATA |} in
  ∃ ev resp metadata n d,
    trace st' = trace at_header ++ [ev] ∧
    ev_call ev = FetchMetadata demo "v1.0.0" ∧
    ev_response ev = Some resp ∧
    json_body resp = Some metadata ∧
    py_getitem metadata "name" = inr n ∧
    py_getitem metadata "description" = inr d ∧
    index st' !! pkg_id demo =
      Some {| git := git (header_of demo);
              versions := <["v1.0.0" := v]> (versions (header_of demo));
              rec_icon := rec_icon (header_of demo);
              name := Some n;
              description := Some d |} ∧
    ∀ id, id ≠ pkg_id demo → index st' !! id = index at_header !! id.
Proof.
  apply (record_sets_name_and_description rich_provider demo at_header _
           "v1.0.0" (header_of demo)).
  - vm_compute. reflexivity.
  - vm_compute. reflexivity.
  - vm_compute. reflexivity.
  - vm_compute. reflexivity.
Defined.

(** The tag [main] is rejected. *)
Lemma rejected_tag_is_never_fetched_witness :
  (∀ p st, process_tag demo_provider p st "main" = Ok st) ∧
  (∀ no_cache packages d ev p,
     ev ∈ trace (final (main demo_provider no_cache packages d).1) →
     ev_call ev ≠ FetchMetadata p "main").
Proof.
  apply (rejected_tag_is_never_fetched demo_provider "main"). reflexivity.
Defined.

(** C10 as stated fails.  The index holds [demo] from an earlier run,
    with its name and the Version Record of v1.0.0; in this run the tag
    list is obtained and has no valid tag.  The record written back is
    the earlier one, not a bare header. *)
Lemma known_package_keeps_name_and_versions :
  let run := main untagged_provider false [demo] first_run.2 in
  exit_code run.1 = 0 ∧
  calls run.1 = [ListTags demo] ∧
  cached_tags (cache (final run.1)) demo = ["main"] ∧
  ∃ r, persisted run.2 "demoapp" = Some r ∧
       name r = Some (JStr "Demo") ∧
       description r = Some (JStr "d") ∧
       versions r !! "v1.0.0" = Some default_version.
Proof.
  cbv zeta. split_and!; try (vm_compute; reflexivity).
  eexists. split; [vm_compute; reflexivity|].
  split_and!; vm_compute; reflexivity.
Qed.

Lemma broken_provider_all_skipped :
  all_skipped "demoapp"
    (trace (final (main broken_provider false [demo] no_files).1)).
Proof.
  intros ev q t resp Hin Hcall Hid Hresp. vm_compute in Hin.
  apply elem_of_cons in Hin as [->|Hin]; [discriminate|].
  apply list_elem_of_singleton in Hin as ->.
  injection Hresp as <-. reflexivity.
Defined.

(** A first run in which the only valid tag of [demo] cannot be fetched. *)
Lemma bare_header_is_persisted_witness :
  let run := main broken_provider false [demo] no_files in
  ∃ i, index_json run.2 = Holds i ∧
       i !! "demoapp" =
         Some {| git := {| provider := "github.com"; owner := "afdaniele";
                           repository := "demoapp" |};
                 versions := ∅;
                 rec_icon := "icon.png";
                 name := None;
                 description := None |}.
Proof.
  apply (bare_header_is_persisted broken_provider false [] [] demo no_files
           (final (main broken_provider false [demo] no_files).1)).
  - vm_compute. reflexivity.
  - intros q Hq. inversion Hq.
  - right. left. reflexivity.
  - apply broken_provider_all_skipped.
Defined.

(** * Further properties of the script *)

(** ** The version filter and the tags of a listing *)


Section Split.

Lemma split_nonempty sep s : split sep s ≠ [].
Proof.
  destruct s as [|c s]; cbn; [done|].
  destruct (Ascii.eqb c sep); [done|]. by destruct (split sep s).
Qed.

Lemma has_char_app c a b : has_char c (a +:+ b) = has_char c a || has_char c b.
Proof.
  induction a as [|x a IH]; [done|].
  rewrite append_cons. cbn. by rewrite IH, orb_assoc.
Qed.

Lemma join_cons sep x y parts :
  join sep (x :: y :: parts) = x +:+ sep +:+ join sep (y :: parts).
Proof. reflexivity. Qed.

(** Joining the parts gives the string back, and no part holds the
    separator. *)
Lemma split_join sep s :
  join (String sep EmptyString) (split sep s) = s ∧
  Forall (λ part, has_char sep part = false) (split sep s).
Proof.
  induction s as [|c s [IHj IHf]]; cbn [split]; [by repeat constructor|].
  pose proof (split_nonempty sep s) as Hne.
  destruct (Ascii.eqb c sep) eqn:Hc.
  - apply Ascii.eqb_eq in Hc as ->. split; [|by constructor].
    destruct (split sep s) as [|x xs]; [done|].
    by rewrite join_cons, IHj, append_nil_l, append_cons, append_nil_l.
  - destruct (split sep s) as [|x xs]; [done|].
    apply Forall_cons in IHf as [Hx Hxs]. split.
    + destruct xs as [|y ys]; [cbn [join] in *; by rewrite IHj|].
      rewrite join_cons in *. by rewrite append_cons, IHj.
    + constructor; [|done]. cbn. by rewrite Hc, Hx.
Qed.

Lemma join_last sep parts :
  parts ≠ [] →
  join sep parts = List.last parts EmptyString ∨
  ∃ before, join sep parts = before +:+ sep +:+ List.last parts EmptyString.
Proof.
  induction parts as [|x parts IH]; [done|]. intros _.
  destruct parts as [|y parts]; [by left|]. right.
  rewrite join_cons.
  change (List.last (x :: y :: parts) EmptyString)
    with (List.last (y :: parts) EmptyString).
  destruct IH as [IH|(before & IH)]; [done| |].
  - exists x. by rewrite IH.
  - exists (x +:+ sep +:+ before). by rewrite IH, !append_assoc.
Qed.

Lemma has_slash_after b t : has_char "/" (b +:+ String "/" t) = true.
Proof. rewrite has_char_app. cbn. apply orb_true_r. Qed.

(** The part after the last slash is determined by the string. *)
Lemma after_slash_unique a b t1 t2 :
  has_char "/" t1 = false → has_char "/" t2 = false →
  a +:+ "/" +:+ t1 = b +:+ "/" +:+ t2 → t1 = t2.
Proof.
  intros H1 H2. revert b. induction a as [|c a IH]; intros [|c' b];
    rewrite ?append_cons, ?append_nil_l.
  - by intros [= ->].
  - intros [= <- ->]. by rewrite has_slash_after in H1.
  - intros [= -> <-]. by rewrite has_slash_after in H2.
  - intros [= <- H]. by apply (IH b).
Qed.

Lemma last_segment_unique ref t1 t2 :
  last_segment_of ref t1 → last_segment_of ref t2 → t1 = t2.
Proof.
  intros [H1 [->|(a & ->)]] [H2 [E|(b & E)]].
  - done.
  - subst. by rewrite append_cons, append_nil_l, has_slash_after in H1.
  - subst. by rewrite append_cons, append_nil_l, has_slash_after in H2.
  - by apply (after_slash_unique a b).
Qed.

Lemma last_split ref :
  last_segment_of ref (List.last (split "/" ref) EmptyString).
Proof.
  destruct (split_join "/" ref) as [Hj Hf]. split.
  - rewrite Forall_forall in Hf. apply Hf. apply list_elem_of_In.
    pose proof (split_nonempty "/" ref).
    destruct (exists_last H) as (l & a & ->). rewrite last_last.
    apply in_or_app. right. by left.
  - destruct (join_last "/" (split "/" ref) (split_nonempty _ _)) as [H|(b & H)];
      rewrite Hj in H; [by left|right; by exists b].
Qed.

Lemma comprehension_Forall2 {A B : Type} (f : A → exn + B) l ys :
  comprehension f l = inr ys ↔ Forall2 (λ x y, f x = inr y) l ys.
Proof.
  revert ys. induction l as [|x l IH]; intros ys; cbn.
  - split; [intros [= <-]; constructor|by intros ->%Forall2_nil_inv_l].
  - destruct (f x) as [e|y] eqn:Hx.
    + split; [done|]. intros (y & ys' & Hy & _ & _)%Forall2_cons_inv_l. congruence.
    + destruct (comprehension f l) as [e|ys'] eqn:Hl.
      * split; [done|]. intros (y' & ys' & _ & Hys & _)%Forall2_cons_inv_l.
        by apply IH in Hys.
      * split.
        -- intros [= <-]. constructor; [done|]. by apply IH.
        -- intros (y' & ys'' & Hy & Hys & ->)%Forall2_cons_inv_l.
           apply IH in Hys. congruence.
Qed.

Lemma ref_tag_names b tag : ref_tag b = inr tag ↔
  ∃ fields ref, b = JObj fields ∧ fields !! "ref" = Some (JStr ref) ∧
                tag = List.last (split "/" ref) EmptyString.
Proof.
  unfold ref_tag, py_getitem. split.
  - destruct b as [| | | | |fields]; try done.
    destruct (fields !! "ref") as [[| | |ref| |]|] eqn:Hf; try done.
    intros [= <-]. by exists fields, ref.
  - intros (fields & ref & -> & -> & ->). done.
Qed.

End Split.

(** X2.  The tag that line 115 takes from an element of the listing is
    the part of its [ref] after the last slash (the whole [ref] when it
    has no slash): it holds no slash itself. *)
Theorem ref_tag_is_last_segment (b : json) (tag : string) :
  ref_tag b = inr tag →
  ∃ fields ref,
    b = JObj fields ∧ fields !! "ref" = Some (JStr ref) ∧
    has_char "/" tag = false ∧
    (ref = tag ∨ ∃ before, ref = before +:+ "/" +:+ tag).
Proof.
  intros (fields & ref & -> & Href & ->)%ref_tag_names.
  exists fields, ref. destruct (last_split ref) as [? ?]. done.
Qed.

(** A reference as the provider writes it. *)
Lemma ref_tag_is_last_segment_witness :
  ∃ fields ref,
    JObj {[ "ref" := JStr "refs/tags/v1.0.0" ]} = JObj fields ∧
    fields !! "ref" = Some (JStr ref) ∧
    has_char "/" "v1.0.0" = false ∧
    (ref = "v1.0.0" ∨ ∃ before, ref = before +:+ "/" +:+ "v1.0.0").
Proof.
  apply (ref_tag_is_last_segment (JObj {[ "ref" := JStr "refs/tags/v1.0.0" ]})).
  reflexivity.
Defined.

(** X3.  Line 115 yields a list of tags exactly when the cached content
    is a list whose elements are all objects with a string [ref], each
    giving its tag in order, or is an empty object or an empty string,
    giving no tag; any other content (null, a number, an error document
    of the provider) raises. *)
Theorem tags_of_content_spec (content : json) (tags : list string) :
  tags_of_content content = inr tags ↔
  (∃ items, content = JArr items ∧ Forall2 names_tag items tags) ∨
  ((content = JObj ∅ ∨ content = JStr EmptyString) ∧ tags = []).
Proof.
  assert (∀ items, comprehension ref_tag items = inr tags ↔
                   Forall2 names_tag items tags) as Hitems.
  { intros items. rewrite comprehension_Forall2. split; intros H.
    - eapply Forall2_impl; [exact H|]. intros b t (f & r & -> & Hr & ->)%ref_tag_names.
      exists f, r. split_and!; try done. apply last_split.
    - eapply Forall2_impl; [exact H|]. intros b t (f & r & -> & Hr & Hlast).
      apply ref_tag_names. exists f, r. split_and!; try done.
      by apply (last_segment_unique r); [|apply last_split]. }
  unfold tags_of_content, py_iter. split.
  - destruct content as [| | |s|items|fields]; try done.
    + destruct s as [|c s]; cbn [chars comprehension]; [|done].
      intros [= <-]. right. auto.
    + intros H%Hitems. left. by exists items.
    + destruct (map_to_list fields) as [|[k v] l] eqn:Hl; cbn; [|done].
      apply map_to_list_empty_iff in Hl as ->. intros [= <-]. right. auto.
  - intros [(items & -> & H)|[[->| ->] ->]].
    + by apply Hitems.
    + by rewrite map_to_list_empty.
    + done.
Qed.

(** ** Providers, exits and files *)

(** X4.  A package whose provider is not [github.com] ends the run with
    an exception before anything is sent: the outcome does not depend on
    the network, no call gets a response, and index, cache and cache
    file are as they were. *)
Theorem unregistered_provider_raises (net net' : network) (no_cache : bool)
    (st : state) (p : package) :
  git_provider p ≠ "github.com" →
  ∃ e st' new,
    process_package net no_cache st p = Raise e st' ∧
    process_package net' no_cache st p = Raise e st' ∧
    trace st' = trace st ++ new ∧
    Forall (λ ev, ev_response ev = None) new ∧
    index st' = index st ∧ cache st' = cache st ∧
    cache_file st' = cache_file st.
Proof.
  intros Hhost. unfold process_package, GIT_PROVIDER_TO_TAGS_URL.
  destruct (String.eqb (git_provider p) "github.com") eqn:Hgh.
  { by apply String.eqb_eq in Hgh. }
  destruct (String.eqb (git_provider p) "bitbucket.com").
  - unfold requests_get. cbn [supported_url String.prefix orb].
    eexists _, _, [_]. split_and!; try done. by repeat constructor.
  - exists KeyError, st, []. rewrite app_nil_r. by split_and!.
Qed.

Lemma unregistered_provider_raises_witness :
  ∃ e st' new,
    process_package demo_provider false (empty_state no_files) mirror
      = Raise e st' ∧
    process_package empty_provider false (empty_state no_files) mirror
      = Raise e st' ∧
    trace st' = trace (empty_state no_files) ++ new ∧
    Forall (λ ev, ev_response ev = None) new ∧
    index st' = index (empty_state no_files) ∧
    cache st' = cache (empty_state no_files) ∧
    cache_file st' = cache_file (empty_state no_files).
Proof.
  apply (unregistered_provider_raises demo_provider empty_provider false
           (empty_state no_files) mirror).
  discriminate.
Defined.

Section Exits.

Context (net : network) (no_cache : bool).

Lemma exits_on_404_ret st : exits_on_404 st (Ok st).
Proof. exists []. by rewrite app_nil_r. Qed.

Lemma exits_on_404_bind st st1 r :
  exits_on_404 st (Ok st1) → exits_on_404 st1 r → exits_on_404 st r.
Proof.
  intros (n1 & E1 & _) (n2 & E2 & H2). cbn in E1.
  exists (n1 ++ n2). split; [by rewrite E2, E1, app_assoc|].
  intros code st' Hr. destruct (H2 code st' Hr)
    as (-> & before & ev & p & resp & -> & ? & ? & ?).
  split; [done|]. exists (n1 ++ before), ev, p, resp.
  by rewrite <- app_assoc.
Qed.

Lemma process_package_exits st p :
  exits_on_404 st (process_package net no_cache st p).
Proof.
  destruct (grows_trace _ _ (process_package_grows net no_cache st p))
    as (new & Ht & _).
  exists new. split; [done|]. intros code st' Hr. rewrite Hr in Ht. cbn in Ht.
  revert Hr. unfold process_package.
  destruct (GIT_PROVIDER_TO_TAGS_URL (git_provider p)) as [template|];
    [|discriminate].
  destruct (requests_get _ _ _ _ _) as [resp st0] eqn:Hget.
  apply requests_get_inv in Hget as [-> _].
  destruct resp as [resp|]; [|discriminate].
  pose proof (quota_check_never_fires resp) as Hq.
  destruct (quota_exhausted resp) as [|[|]]; [discriminate|done|].
  destruct (status_code resp =? 404) eqn:H404.
  - intros [= <- <-]. split; [done|]. cbn in Ht. apply app_inv_head in Ht.
    eexists [], _, p, resp. split_and!; [symmetry; exact Ht|done|done|lia].
  - match goal with |- context [update_cache _ _ _ ?s] =>
      pose proof (update_cache_no_exit no_cache p resp s) as Hupd;
      destruct (update_cache no_cache p resp s) as [st1| |]
    end; cbn [and_then]; [|intros E; by apply Hupd in E|discriminate].
    destruct (cache _ !! pkg_id p) as [entry|]; [|discriminate].
    destruct (tags_of_content _) as [|tags]; [discriminate|].
    match goal with |- context [for_each ?b ?l ?s] =>
      pose proof (tag_loop_no_exit net p l s) as Hloop;
      destruct (for_each b l s) as [st2| |]
    end; cbn [and_then]; [discriminate| |discriminate].
    intros E. by apply Hloop in E.
Qed.

Lemma run_packages_exits packages st :
  exits_on_404 st (run_packages net no_cache packages st).
Proof.
  unfold run_packages. apply (for_each_result _ exits_on_404);
    [apply exits_on_404_ret|apply exits_on_404_bind|apply process_package_exits].
Qed.

End Exits.

(** X5.  The process leaves through [sys.exit] in one way only: with exit
    code 2, right after a tag listing answered with 404.  The exit of
    line 93 is never taken. *)
Theorem exit_only_after_404 (net : network) (no_cache : bool)
    (packages : list package) (d : disk) (code : Z) (st' : state) :
  (main net no_cache packages d).1 = Exit code st' →
  code = 2 ∧
  ∃ before ev p resp,
    trace st' = before ++ [ev] ∧ ev_call ev = ListTags p ∧
    ev_response ev = Some resp ∧ status_code resp = 404.
Proof.
  intros Hexit.
  destruct (main_trace net no_cache packages d) as [[_ (e & He)]|(st & Hst & Hnil & Hrun)].
  { unfold main in Hexit. by rewrite He in Hexit. }
  rewrite Hrun in Hexit.
  destruct (run_packages_exits net no_cache packages st) as (new & Ht & Hnew).
  destruct (Hnew code st' Hexit) as (-> & before & ev & p & resp & -> & ? & ? & ?).
  split; [done|]. exists before, ev, p, resp.
  rewrite Hexit, Hnil in Ht. cbn in Ht. by split_and!.
Qed.

Lemma exit_only_after_404_witness :
  let st' := final (main empty_provider false [other; demo] no_files).1 in
  2 = 2 ∧
  ∃ before ev p resp,
    trace st' = before ++ [ev] ∧ ev_call ev = ListTags p ∧
    ev_response ev = Some resp ∧ status_code resp = 404.
Proof.
  apply (exit_only_after_404 empty_provider false [other; demo] no_files).
  vm_compute. reflexivity.
Defined.

Section Files.

Context (net : network).

Lemma run_packages_elsewhere_final no_cache packages st id :
  id ∉ pkg_id <$> packages →
  let st' := final (run_packages net no_cache packages st) in
  index st' !! id = index st !! id ∧ cache st' !! id = cache st !! id.
Proof.
  unfold run_packages. revert st.
  induction packages as [|q packages IH]; intros st Hid; [done|].
  rewrite fmap_cons, not_elem_of_cons in Hid. destruct Hid as [Hne Hid].
  pose proof (process_package_elsewhere net no_cache st q id Hne) as Hq.
  cbn [for_each]. destruct (process_package net no_cache st q) as [st1| |];
    cbn [and_then final] in *; try done.
  destruct (IH st1 Hid) as [-> ->]. done.
Qed.

End Files.

(** X6.  With caching enabled and a readable index file, the cache file
    holds the cache of the process whenever the process ends, whether at
    the end of [main], through [sys.exit] or through an exception: the
    next run starts from every tag list this one has taken in. *)
Theorem cache_file_holds_the_cache (net : network) (packages : list package)
    (d : disk) :
  index_json d ≠ Unreadable →
  let run := main net false packages d in
  load_cache (cache_json run.2) = cache (final run.1).
Proof.
  intros Hidx. cbv zeta. unfold main.
  destruct (initial_state false d) as [e|st] eqn:Hst.
  { unfold initial_state in Hst. by destruct (index_json d). }
  cbn [fst snd disk_after cache_json].
  apply run_packages_cache_file.
  unfold initial_state in Hst. destruct (index_json d); try done;
    by injection Hst as <-.
Qed.

Lemma cache_file_holds_the_cache_witness :
  let run := main garbled_provider false [demo] no_files in
  load_cache (cache_json run.2) = cache (final run.1).
Proof.
  apply (cache_file_holds_the_cache garbled_provider [demo] no_files).
  discriminate.
Defined.

(** X7.  A run with caching enabled never takes a package out of the
    index file and never changes the git coordinates or the icon of a
    Package Record, whatever the packages file now says about that id;
    the Version Records of the package are all kept. *)
Theorem package_records_are_kept (net : network) (packages : list package)
    (d : disk) (i : gmap string package_record) (id : string)
    (r : package_record) :
  index_json d = Holds i →
  i !! id = Some r →
  let run := main net false packages d in
  ∃ i' r',
    index_json run.2 = Holds i' ∧ i' !! id = Some r' ∧
    git r' = git r ∧ rec_icon r' = rec_icon r ∧ versions r ⊆ versions r'.
Proof.
  intros Hi Hr. cbv zeta.
  destruct (initial_state_index d i Hi) as (st & Hst & <-).
  unfold main. rewrite Hst. cbn [fst snd disk_after index_json].
  pose proof (run_packages_grows net false packages st) as Hg.
  destruct (grows_index _ _ Hg id r Hr) as (r' & Hr' & ? & ? & ?).
  destruct (run_packages net false packages st) as [st'| |]; cbn [final] in *.
  - by exists (index st'), r'.
  - exists (index st), r. by rewrite Hi.
  - exists (index st), r. by rewrite Hi.
Qed.

Lemma package_records_are_kept_witness :
  let run := main moved_provider false [moved] first_run.2 in
  ∃ i' r',
    index_json run.2 = Holds i' ∧ i' !! "demoapp" = Some r' ∧
    git r' = git demo_record ∧ rec_icon r' = rec_icon demo_record ∧
    versions demo_record ⊆ versions r'.
Proof.
  apply (package_records_are_kept moved_provider [moved] first_run.2
           (index (final first_run.1)) "demoapp" demo_record).
  - vm_compute. reflexivity.
  - vm_compute. reflexivity.
Defined.

(** X8.  A run with caching enabled changes only what belongs to the
    packages of its list: for any other id, the Package Record in the
    index file and the entry in the cache file are, when the process
    ends, what they were when it started. *)
Theorem unlisted_packages_are_untouched (net : network)
    (packages : list package) (d : disk) (i : gmap string package_record)
    (id : string) :
  index_json d = Holds i →
  id ∉ pkg_id <$> packages →
  let run := main net false packages d in
  (∃ i', index_json run.2 = Holds i' ∧ i' !! id = i !! id) ∧
  load_cache (cache_json run.2) !! id = load_cache (cache_json d) !! id.
Proof.
  intros Hi Hid. cbv zeta.
  destruct (initial_state_index d i Hi) as (st & Hst & <-).
  unfold main. rewrite Hst. cbn [fst snd disk_after index_json cache_json].
  destruct (run_packages_elsewhere_final net false packages st id Hid) as [Hx Hc].
  assert (load_cache (cache_file st) = cache st ∧ cache_file st = cache_json d)
    as [Hfile Hd].
  { unfold initial_state in Hst. rewrite Hi in Hst. by injection Hst as <-. }
  rewrite (run_packages_cache_file net packages st Hfile), Hc, <- Hfile, Hd.
  split; [|done].
  destruct (run_packages net false packages st) as [st'| |]; cbn [final] in *;
    eauto.
Qed.

Lemma unlisted_packages_are_untouched_witness :
  let run := main exhausted_provider false [other] first_run.2 in
  (∃ i', index_json run.2 = Holds i' ∧
         i' !! "demoapp" = index (final first_run.1) !! "demoapp") ∧
  load_cache (cache_json run.2) !! "demoapp"
    = load_cache (cache_json first_run.2) !! "demoapp".
Proof.
  apply (unlisted_packages_are_untouched exhausted_provider [other] first_run.2
           (index (final first_run.1)) "demoapp").
  - vm_compute. reflexivity.
  - cbn. by intros [=]%list_elem_of_singleton.
Defined.

(** ** What a completed run has done *)

Section Completed.

Context (net : network) (no_cache : bool).

Lemma process_package_Ok_counts st p st' :
  process_package net no_cache st p = Ok st' →
  num_packages st' = S (num_packages st).
Proof.
  intros (template & resp & st0 & st1 & entry & tags & st2 & Hurl & Hget & H404 &
          Hupd & Hentry & Htags & Hloop & ->)%process_package_Ok.
  apply requests_get_inv in Hget as [-> _].
  match type of Hupd with update_cache _ _ _ ?s = _ =>
    pose proof (update_cache_final no_cache p resp s) as (_ & _ & Hn & _) end.
  rewrite Hupd in Hn. cbn in Hn.
  match type of Hloop with for_each _ _ ?s = _ =>
    destruct (tag_loop_frame net p s tags) as [_ _ Hn2 _ _] end.
  rewrite Hloop in Hn2. cbn in Hn2. cbn. rewrite Hn2.
  unfold add_header. destruct (status_code resp =? 304);
    destruct (index _ !! pkg_id p); cbn; by rewrite Hn.
Qed.

Lemma run_packages_Ok_cache packages st st' id :
  run_packages net no_cache packages st = Ok st' →
  is_Some (cache st !! id) → is_Some (cache st' !! id).
Proof.
  unfold run_packages. revert st.
  induction packages as [|q packages IH]; intros st; [by intros [= <-]|].
  intros (st1 & Hstep & Hrun)%for_each_cons_Ok Hsome. apply (IH st1 Hrun).
  destruct (decide (id = pkg_id q)) as [->|Hne].
  - destruct (process_package_passed net no_cache st q st1 Hstep)
      as (? & e & ? & ? & _ & _ & He & _). by rewrite He.
  - pose proof (process_package_elsewhere net no_cache st q id Hne) as [_ Hc].
    rewrite Hstep in Hc. cbn in Hc. by rewrite Hc.
Qed.

Lemma run_packages_Ok_covers packages st st' :
  run_packages net no_cache packages st = Ok st' →
  num_packages st' = (num_packages st + length packages)%nat ∧
  ∀ p, p ∈ packages →
    is_Some (cache st' !! pkg_id p) ∧ is_Some (index st' !! pkg_id p).
Proof.
  unfold run_packages. revert st.
  induction packages as [|q packages IH]; intros st.
  { intros [= <-]. split; [cbn; lia|]. intros p Hp. inversion Hp. }
  intros (st1 & Hstep & Hrun)%for_each_cons_Ok.
  destruct (IH st1 Hrun) as [Hn Hall]. split.
  - rewrite Hn, (process_package_Ok_counts st q st1 Hstep). cbn. lia.
  - intros p [->|Hp]%elem_of_cons; [|by apply Hall].
    destruct (process_package_passed net no_cache st q st1 Hstep)
      as (? & e & ? & r & _ & _ & He & _ & Hr & _).
    split.
    + apply (run_packages_Ok_cache packages st1 st' _ Hrun). by rewrite He.
    + pose proof (run_packages_grows net no_cache packages st1) as Hg.
      unfold run_packages in Hg. rewrite Hrun in Hg. cbn [final] in Hg.
      destruct (grows_index _ _ Hg _ _ Hr) as (r' & Hr' & _). by rewrite Hr'.
Qed.

End Completed.

(** X9.  When [main] reaches its end, the package counter is the length
    of the package list, and every package of the list has an entry in
    the cache and a Package Record in the index file. *)
Theorem completed_run_covers_every_package (net : network) (no_cache : bool)
    (packages : list package) (d : disk) (st' : state) :
  let run := main net no_cache packages d in
  run.1 = Ok st' →
  num_packages st' = length packages ∧
  ∀ p, p ∈ packages →
    is_Some (cache st' !! pkg_id p) ∧
    ∃ i' r, index_json run.2 = Holds i' ∧ i' !! pkg_id p = Some r.
Proof.
  cbv zeta. unfold main.
  destruct (initial_state no_cache d) as [e|st] eqn:Hst; [discriminate|].
  cbn [fst snd]. intros Hrun. rewrite Hrun. cbn [disk_after index_json].
  destruct (run_packages_Ok_covers net no_cache packages st st' Hrun) as [Hn Hall].
  split.
  - rewrite Hn. unfold initial_state in Hst.
    destruct no_cache; [by injection Hst as <-|].
    destruct (index_json d); try done; by injection Hst as <-.
  - intros p Hp. destruct (Hall p Hp) as [Hc [r Hr]]. split; [done|].
    by exists (index st'), r.
Qed.

Lemma completed_run_covers_every_package_witness :
  let run := main exhausted_provider false [demo; other] first_run.2 in
  num_packages (final run.1) = length [demo; other] ∧
  ∀ p, p ∈ [demo; other] →
    is_Some (cache (final run.1) !! pkg_id p) ∧
    ∃ i' r, index_json run.2 = Holds i' ∧ i' !! pkg_id p = Some r.
Proof.
  apply (completed_run_covers_every_package exhausted_provider false
           [demo; other] first_run.2).
  vm_compute. reflexivity.
Defined.

(** ** Invariants of the index *)

Section IndexShape.

Context (net : network) (p : package).

(** The index after a pass through the loop body that ends in an
    exception: untouched, or with the name and the description of the
    package already replaced (the exception came after line 162). *)
Lemma process_tag_raise_index st tag e st' :
  process_tag net p st tag = Raise e st' →
  index st' = index st ∨
  ∃ r n d, index st !! pkg_id p = Some r ∧
           index st' = <[pkg_id p := set_name_description n d r]> (index st).
Proof.
  unfold process_tag.
  destruct (negb (is_valid_version tag)); [discriminate|].
  destruct (index st !! pkg_id p) as [r|] eqn:Hr; [|intros [= <- <-]; by left].
  case_bool_decide; [discriminate|].
  destruct (GIT_PROVIDER_TO_RAW_URL (git_provider p)) as [template|];
    [|intros [= <- <-]; by left].
  destruct (requests_get _ _ _ _ _) as [resp st1] eqn:Hget.
  apply requests_get_inv in Hget as [-> _].
  destruct resp as [resp|]; [|intros [= <- <-]; by left].
  destruct (status_code resp =? 404); [discriminate|].
  destruct (metadata_of resp) as [metadata|]; [|intros [= <- <-]; by left].
  destruct (py_len metadata) as [|[|len]]; [intros [= <- <-]; by left|discriminate|].
  clear len. unfold record_version. cbn [index log_call add_miss]. rewrite Hr.
  destruct (py_getitem metadata "name") as [|n]; [intros [= <- <-]; by left|].
  destruct (py_getitem metadata "description") as [|d];
    [intros [= <- <-]; by left|].
  assert (∀ x y, Raise x
            (set_index (<[pkg_id p := set_name_description n d r]>
               (index st)) y) = Raise e st' →
          index st' = index st ∨
          ∃ r0 n0 d0, Some r = Some r0 ∧
            index st' = <[pkg_id p := set_name_description n0 d0 r0]> (index st))
    as Hnamed.
  { intros x y [= <- <-]. right. by exists r, n, d. }
  destruct (py_getitem metadata "dependencies") as [|deps]; [apply Hnamed|].
  destruct (py_getitem deps "packages") as [|dp]; [apply Hnamed|].
  destruct (compatibility_of metadata) as [|compat]; [apply Hnamed|].
  discriminate.
Qed.

End IndexShape.

Section Named.

Context (net : network).

Lemma named_insert i id r :
  named_when_versioned i →
  (versions r ≠ ∅ → is_Some (name r) ∧ is_Some (description r)) →
  named_when_versioned (<[id := r]> i).
Proof.
  intros Hi Hr id' r'. destruct (decide (id' = id)) as [->|Hne].
  - rewrite lookup_insert_eq. by intros [= <-].
  - rewrite lookup_insert_ne by done. apply Hi.
Qed.

Lemma process_tag_named p st tag :
  named_when_versioned (index st) →
  named_when_versioned (index (final (process_tag net p st tag))).
Proof.
  intros Hi. destruct (process_tag net p st tag) as [st'|code st'|e st'] eqn:Hstep;
    cbn [final].
  - apply process_tag_Ok in Hstep. destruct Hstep; try done.
    cbn. apply named_insert; [done|]. cbn. eauto.
  - by apply process_tag_no_exit in Hstep.
  - apply process_tag_raise_index in Hstep as [->|(r & n & d & Hr & ->)];
      [done|]. cbn. apply named_insert; [done|]. cbn. eauto.
Qed.

Lemma process_package_named no_cache st p :
  named_when_versioned (index st) →
  named_when_versioned (index (final (process_package net no_cache st p))).
Proof.
  intros Hi. unfold process_package.
  destruct (GIT_PROVIDER_TO_TAGS_URL (git_provider p)) as [template|]; [|done].
  destruct (requests_get _ _ _ _ _) as [resp st0] eqn:Hget.
  apply requests_get_inv in Hget as [-> _].
  destruct resp as [resp|]; [|done].
  destruct (quota_exhausted resp) as [|[|]]; try done.
  destruct (status_code resp =? 404); [done|].
  match goal with |- context [update_cache _ _ _ ?s] =>
    pose proof (update_cache_final no_cache p resp s) as (_ & Hidx & _);
    destruct (update_cache no_cache p resp s) as [st1| |]
  end; cbn [and_then final] in *; try by rewrite Hidx.
  set (st1' := if status_code resp =? 304 then add_hit st1 else st1).
  assert (named_when_versioned (index st1')) as H1.
  { subst st1'. destruct (status_code resp =? 304); cbn; by rewrite Hidx. }
  destruct (cache st1' !! pkg_id p) as [entry|]; [|done].
  destruct (tags_of_content (Content entry)) as [|tags]; [done|].
  assert (named_when_versioned (index (add_header p st1'))) as Hh.
  { unfold add_header. destruct (index st1' !! pkg_id p); [done|].
    cbn. apply named_insert; [done|]. by cbn. }
  pose proof (for_each_final (process_tag net p)
                (λ s s', named_when_versioned (index s) →
                         named_when_versioned (index s'))
                (λ _ H, H) (λ _ _ _ H1 H2 H, H2 (H1 H))
                (process_tag_named p) tags (add_header p st1') Hh) as Hloop.
  destruct (for_each _ tags _) as [st2| |]; cbn [and_then final] in *; done.
Qed.

Lemma run_packages_named no_cache packages st :
  named_when_versioned (index st) →
  named_when_versioned (index (final (run_packages net no_cache packages st))).
Proof.
  unfold run_packages.
  apply (for_each_final (process_package net no_cache)
           (λ s s', named_when_versioned (index s) →
                    named_when_versioned (index s'))); [done|auto|].
  intros s p. apply process_package_named.
Qed.

End Named.

(** X10.  If every package of the index file that has a Version Record
    has a name and a description (as in an index file that is absent),
    the same holds of the index file after any run, with or without
    [--no-cache] and however the run ends. *)
Theorem versioned_packages_are_named (net : network) (no_cache : bool)
    (packages : list package) (d : disk) (i' : gmap string package_record) :
  (∀ i, index_json d = Holds i → named_when_versioned i) →
  index_json (main net no_cache packages d).2 = Holds i' →
  named_when_versioned i'.
Proof.
  intros Hd. unfold main.
  destruct (initial_state no_cache d) as [e|st] eqn:Hst; [apply Hd|].
  cbn [snd disk_after index_json].
  assert (named_when_versioned (index st)) as Hst'.
  { unfold initial_state in Hst. destruct no_cache.
    - injection Hst as <-. by intros ? ?.
    - destruct (index_json d) eqn:Hi; try done; injection Hst as <-;
        [by intros ? ?|by apply Hd]. }
  pose proof (run_packages_named net no_cache packages st Hst') as Hrun.
  destruct (run_packages net no_cache packages st) as [st'| |];
    cbn [final] in *; [by intros [= <-]|apply Hd|apply Hd].
Qed.

Lemma versioned_packages_are_named_witness :
  named_when_versioned (index (final first_run.1)).
Proof.
  apply (versioned_packages_are_named demo_provider false [demo] no_files).
  - intros i Hi. discriminate.
  - vm_compute. reflexivity.
Defined.

(** ** Where Version Records come from *)

Section Provenance.

Context (net : network).

Lemma provenance_refl st : provenance st st.
Proof. exists []. rewrite app_nil_r. split; [done|]. intros. by left. Qed.

Lemma provenance_trans st1 st2 st3 :
  provenance st1 st2 → provenance st2 st3 → provenance st1 st3.
Proof.
  intros (n1 & E1 & H1) (n2 & E2 & H2). exists (n1 ++ n2).
  split; [by rewrite E2, E1, app_assoc|]. intros id tag v Hv.
  destruct (H2 id tag v Hv)
    as [Hv2|(Hvalid & ev & q & resp & m & deps & Hin & Hrest)].
  - destruct (H1 id tag v Hv2)
      as [Hv1|(Hvalid & ev & q & resp & m & deps & Hin & Hrest)]; [by left|].
    right. split; [done|]. exists ev, q, resp, m, deps.
    split; [apply elem_of_app; by left|done].
  - right. split; [done|]. exists ev, q, resp, m, deps.
    split; [apply elem_of_app; by right|done].
Qed.

(** A step that adds calls and leaves every Version Record alone. *)
Lemma provenance_same st st' new :
  trace st' = trace st ++ new →
  (∀ id tag, version_record (index st') id tag
             = version_record (index st) id tag) →
  provenance st st'.
Proof.
  intros Ht Hv. exists new. split; [done|]. intros id tag v. rewrite Hv. by left.
Qed.

Lemma version_record_renamed i id r n d id' tag :
  i !! id = Some r →
  version_record (<[id := set_name_description n d r]> i) id' tag
  = version_record i id' tag.
Proof.
  intros Hr. unfold version_record. destruct (decide (id' = id)) as [->|Hne].
  - by rewrite lookup_insert_eq, Hr.
  - by rewrite lookup_insert_ne.
Qed.

Lemma process_tag_provenance p st tag :
  provenance st (final (process_tag net p st tag)).
Proof.
  destruct (process_tag net p st tag) as [st'|code st'|e st'] eqn:Hstep;
    cbn [final].
  - apply process_tag_Ok in Hstep.
    destruct Hstep as [Hrej|r Hvalid Hr Hin|r ev resp Hvalid Hr Hnone Hcall Hresp Hskip
                      |r ev resp metadata n d deps dp compat Hvalid Hr Hnone Hcall
                         Hresp Hskip H200 Hbody Hn Hd Hdeps Hdp Hcompat].
    + apply provenance_refl.
    + by apply (provenance_same _ _ []); [cbn; rewrite app_nil_r|].
    + by apply (provenance_same _ _ [ev]).
    + exists [ev]. split; [done|]. intros id tag' v. unfold version_record. cbn.
      destruct (decide (id = pkg_id p)) as [->|Hne].
      * rewrite lookup_insert_eq, Hr. cbn.
        destruct (decide (tag' = tag)) as [->|Hne].
        -- rewrite lookup_insert_eq. intros [= <-]. right. split; [done|].
           destruct Hcall as (template & _ & Hev).
           exists ev, p, resp, metadata, deps. split_and!; try done.
           ++ by apply list_elem_of_singleton.
           ++ by rewrite Hev.
        -- rewrite lookup_insert_ne by done. by left.
      * rewrite lookup_insert_ne by done. by left.
  - by apply process_tag_no_exit in Hstep.
  - destruct (grows_trace _ _ (process_tag_grows net p st tag)) as (new & Ht & _).
    rewrite Hstep in Ht. cbn in Ht.
    apply (provenance_same _ _ new Ht). intros id tag'.
    apply process_tag_raise_index in Hstep as [->|(r & n & d & Hr & ->)]; [done|].
    by apply version_record_renamed.
Qed.

Lemma add_header_versions p st id tag :
  version_record (index (add_header p st)) id tag
  = version_record (index st) id tag.
Proof.
  unfold add_header. destruct (index st !! pkg_id p) eqn:Hp; [done|].
  unfold version_record. cbn. destruct (decide (id = pkg_id p)) as [->|Hne].
  - by rewrite lookup_insert_eq, Hp.
  - by rewrite lookup_insert_ne.
Qed.

Lemma process_package_provenance no_cache st p :
  provenance st (final (process_package net no_cache st p)).
Proof.
  unfold process_package.
  destruct (GIT_PROVIDER_TO_TAGS_URL (git_provider p)) as [template|];
    [|apply provenance_refl].
  destruct (requests_get _ _ _ _ _) as [resp st0] eqn:Hget.
  apply requests_get_inv in Hget as [-> _].
  match goal with |- context [log_call ?e _] => set (ev := e) end.
  assert (provenance st (log_call ev st)) as Hcall.
  { by apply (provenance_same _ _ [ev]). }
  destruct resp as [resp|]; [|exact Hcall].
  destruct (quota_exhausted resp) as [|[|]]; try exact Hcall.
  destruct (status_code resp =? 404); [exact Hcall|].
  pose proof (update_cache_final no_cache p resp (log_call ev st)) as (Ht & Hi & _).
  assert (provenance st (final (update_cache no_cache p resp (log_call ev st))))
    as Hupd.
  { eapply provenance_trans; [exact Hcall|].
    apply (provenance_same _ _ []); [by rewrite Ht, app_nil_r|]. by rewrite Hi. }
  destruct (update_cache _ _ _ _) as [st1| |]; cbn [and_then final] in *;
    try exact Hupd.
  set (st1' := if status_code resp =? 304 then add_hit st1 else st1).
  assert (provenance st (add_header p st1')) as Hh.
  { eapply provenance_trans; [exact Hupd|].
    apply (provenance_same _ _ []).
    - rewrite app_nil_r. unfold add_header. subst st1'.
      destruct (status_code resp =? 304); by destruct (index _ !! pkg_id p).
    - intros id tag. rewrite add_header_versions. subst st1'.
      by destruct (status_code resp =? 304). }
  assert (trace st1' = trace st1 ∧ index st1' = index st1) as [Ht1 Hi1].
  { subst st1'. by destruct (status_code resp =? 304). }
  assert (provenance st st1') as H304.
  { eapply provenance_trans; [exact Hupd|].
    by apply (provenance_same _ _ []); [rewrite Ht1, app_nil_r|rewrite Hi1]. }
  destruct (cache st1' !! pkg_id p) as [entry|]; [|exact H304].
  destruct (tags_of_content (Content entry)) as [|tags]; [exact H304|].
  assert (provenance st
            (final (for_each (process_tag net p) tags (add_header p st1'))))
    as Hloop.
  { eapply provenance_trans; [exact Hh|].
    apply (for_each_final (process_tag net p) provenance);
      [apply provenance_refl|apply provenance_trans|apply process_tag_provenance]. }
  destruct (for_each _ tags _) as [st2| |]; cbn [and_then final] in *;
    exact Hloop.
Qed.

Lemma run_packages_provenance no_cache packages st :
  provenance st (final (run_packages net no_cache packages st)).
Proof.
  unfold run_packages. apply for_each_final;
    [apply provenance_refl|apply provenance_trans
    |apply process_package_provenance].
Qed.

End Provenance.

(** X11.  Every Version Record of the index file after a run was in the
    index file before the run, or was built in this run, for a tag that
    the filter accepts, from a document fetched for that tag with status
    200: its dependencies are the [dependencies.packages] of the
    document and its compatibility is what lines 168-171 take from
    it. *)
Theorem version_records_come_from_fetches (net : network) (no_cache : bool)
    (packages : list package) (d : disk) (i' : gmap string package_record)
    (id tag : string) (v : version_info) :
  let run := main net no_cache packages d in
  index_json run.2 = Holds i' →
  version_record i' id tag = Some v →
  (∃ i, index_json d = Holds i ∧ version_record i id tag = Some v) ∨
  is_valid_version tag = true ∧
  ∃ ev q resp metadata deps,
    ev ∈ trace (final run.1) ∧ ev_call ev = FetchMetadata q tag ∧
    pkg_id q = id ∧ ev_response ev = Some resp ∧ status_code resp = 200 ∧
    json_body resp = Some metadata ∧
    py_getitem metadata "dependencies" = inr deps ∧
    py_getitem deps "packages" = inr (dependencies v) ∧
    compatibility_of metadata = inr (compatibility v).
Proof.
  cbv zeta. unfold main.
  destruct (initial_state no_cache d) as [e|st] eqn:Hst.
  { intros Hi Hv. left. eauto. }
  cbn [fst snd disk_after index_json].
  pose proof (initial_state_trace _ _ _ Hst) as Hnil.
  destruct (run_packages_provenance net no_cache packages st) as (new & Ht & Hnew).
  destruct (run_packages net no_cache packages st) as [st'| |] eqn:Hrun;
    cbn [final] in *; [|intros Hi Hv; left; eauto..].
  intros [= <-] Hv. rewrite Ht, Hnil. cbn [app].
  destruct (Hnew id tag v Hv) as [Hold|Hfetched]; [left|by right].
  unfold initial_state in Hst. destruct no_cache.
  - injection Hst as <-. done.
  - destruct (index_json d) as [| |i] eqn:Hi; try done; injection Hst as <-;
      [done|eauto].
Qed.

Lemma version_records_come_from_fetches_witness :
  let run := main demo_provider false [demo] no_files in
  (∃ i, index_json no_files = Holds i ∧
        version_record i "demoapp" "v1.0.0" = Some default_version) ∨
  is_valid_version "v1.0.0" = true ∧
  ∃ ev q resp metadata deps,
    ev ∈ trace (final run.1) ∧ ev_call ev = FetchMetadata q "v1.0.0" ∧
    pkg_id q = "demoapp" ∧ ev_response ev = Some resp ∧
    status_code resp = 200 ∧ json_body resp = Some metadata ∧
    py_getitem metadata "dependencies" = inr deps ∧
    py_getitem deps "packages" = inr (dependencies default_version) ∧
    compatibility_of metadata = inr (compatibility default_version).
Proof.
  apply (version_records_come_from_fetches demo_provider false [demo] no_files
           (index (final first_run.1))).
  - vm_compute. reflexivity.
  - vm_compute. reflexivity.
Defined.

(** ** The statistics *)

Section Misses.

Context (net : network).

(** The two URL tables know the same providers. *)
Lemma raw_url_registered host template :
  GIT_PROVIDER_TO_TAGS_URL host = Some template →
  is_Some (GIT_PROVIDER_TO_RAW_URL host).
Proof.
  unfold GIT_PROVIDER_TO_TAGS_URL, GIT_PROVIDER_TO_RAW_URL.
  destruct (String.eqb host "github.com"); [eauto|].
  destruct (String.eqb host "bitbucket.com"); [eauto|done].
Qed.

Lemma misses_counted_log st ev :
  misses_counted st →
  misses_counted (log_call ev (if costs_miss ev then add_miss st else st)).
Proof.
  unfold misses_counted. cbn [trace log_call]. rewrite List.filter_app, length_app.
  cbn [List.filter]. destruct (costs_miss ev); cbn; lia.
Qed.

Lemma process_tag_misses p st tag :
  is_Some (GIT_PROVIDER_TO_RAW_URL (git_provider p)) →
  misses_counted st →
  misses_counted (final (process_tag net p st tag)).
Proof.
  intros [template Hurl] Hst. unfold process_tag. rewrite Hurl.
  destruct (negb (is_valid_version tag)); [done|].
  destruct (index st !! pkg_id p) as [r|] eqn:Hr; [|done].
  case_bool_decide; [done|].
  destruct (requests_get _ _ _ _ _) as [resp st1] eqn:Hget.
  apply requests_get_inv in Hget as [-> _].
  match goal with |- context [log_call ?e _] => set (ev := e) end.
  assert (misses_counted (log_call ev (add_miss st))) as Hcall.
  { apply (misses_counted_log st ev Hst). }
  destruct resp as [resp|]; [|exact Hcall].
  destruct (status_code resp =? 404); [exact Hcall|].
  destruct (metadata_of resp) as [metadata|]; [|exact Hcall].
  destruct (py_len metadata) as [|[|len]]; [exact Hcall|exact Hcall|].
  unfold record_version. repeat case_match; exact Hcall.
Qed.

Lemma process_package_misses no_cache st p :
  misses_counted st →
  misses_counted (final (process_package net no_cache st p)).
Proof.
  intros Hst. unfold process_package.
  destruct (GIT_PROVIDER_TO_TAGS_URL (git_provider p)) as [template|] eqn:Hurl;
    [|done].
  apply raw_url_registered in Hurl.
  destruct (requests_get _ _ _ _ _) as [resp st0] eqn:Hget.
  apply requests_get_inv in Hget as [-> _].
  match goal with |- context [log_call ?e _] => set (ev := e) end.
  pose proof (misses_counted_log st ev Hst) as Hcall.
  destruct resp as [resp|]; [|exact Hcall].
  unfold quota_exhausted.
  destruct (status_code resp =? 401) eqn:H401.
  { assert (costs_miss ev = false) as Hev.
    { subst ev. unfold costs_miss. cbn. lia. }
    rewrite Hev in Hcall.
    destruct (headers resp !! "X-RateLimit-Remaining") as [remaining|];
      [|exact Hcall].
    cbn [py_eq]. destruct (status_code resp =? 404) eqn:H404; [lia|].
    unfold update_cache. assert ((status_code resp =? 200) = false) as -> by lia.
    cbn [and_then].
    assert ((status_code resp =? 304) = false) as -> by lia.
    destruct (cache _ !! pkg_id p) as [entry|]; [|exact Hcall].
    destruct (tags_of_content (Content entry)) as [|tags]; [exact Hcall|].
    match goal with |- context [for_each ?body ?l ?start] =>
      pose proof (for_each_final body
                    (λ x y, misses_counted x → misses_counted y)
                    (λ _ H, H) (λ _ _ _ H1 H2 H, H2 (H1 H))
                    (λ x t, process_tag_misses p x t Hurl) l start) as Hloop;
      destruct (for_each body l start) as [st2| |]
    end; cbn [and_then final] in *; apply Hloop;
      unfold add_header; by destruct (index _ !! pkg_id p). }
  destruct (status_code resp =? 404) eqn:H404.
  { assert (costs_miss ev = false) as Hev.
    { subst ev. unfold costs_miss. cbn. lia. }
    by rewrite Hev in Hcall. }
  assert (misses_counted
            (final (update_cache no_cache p resp (log_call ev st))) ) as Hupd.
  { unfold update_cache. subst ev. unfold costs_miss in Hcall. cbn in Hcall.
    destruct (status_code resp =? 200); [|exact Hcall].
    repeat case_match; exact Hcall. }
  destruct (update_cache _ _ _ _) as [st1| |]; cbn [and_then final] in *;
    try exact Hupd.
  set (st1' := if status_code resp =? 304 then add_hit st1 else st1).
  assert (misses_counted st1') as H304.
  { subst st1'. by destruct (status_code resp =? 304). }
  destruct (cache st1' !! pkg_id p) as [entry|]; [|exact H304].
  destruct (tags_of_content (Content entry)) as [|tags]; [exact H304|].
  match goal with |- context [for_each ?body ?l ?start] =>
    pose proof (for_each_final body
                  (λ x y, misses_counted x → misses_counted y)
                  (λ _ H, H) (λ _ _ _ H1 H2 H, H2 (H1 H))
                  (λ x t, process_tag_misses p x t Hurl) l start) as Hloop;
    destruct (for_each body l start) as [st2| |]
  end; cbn [and_then final] in *; apply Hloop;
    unfold add_header; by destruct (index _ !! pkg_id p).
Qed.

End Misses.

(** X12.  The cache-miss counter that [main] reports is the number of
    tag listings answered with status 200 plus the number of metadata
    calls made, however the run ends. *)
Theorem misses_are_the_fetches (net : network) (no_cache : bool)
    (packages : list package) (d : disk) :
  let st' := final (main net no_cache packages d).1 in
  misses st' = length (List.filter costs_miss (trace st')).
Proof.
  cbv zeta. unfold main.
  destruct (initial_state no_cache d) as [e|st] eqn:Hst; [done|].
  cbn [fst]. unfold run_packages.
  apply (for_each_final (process_package net no_cache)
           (λ x y, misses_counted x → misses_counted y)
           (λ _ H, H) (λ _ _ _ H1 H2 H, H2 (H1 H))
           (process_package_misses net no_cache)).
  unfold initial_state in Hst. destruct no_cache; [by injection Hst as <-|].
  destruct (index_json d); try done; by injection Hst as <-.
Qed.

(** ** Tag listings without a cache entry *)

Section FirstListings.

Context (net : network) (no_cache : bool).

Lemma first_listings_fresh_ret st : first_listings_fresh st (Ok st).
Proof.
  exists []. rewrite app_nil_r. split; [done|]. intros st' _ ev p Hin.
  inversion Hin.
Qed.

Lemma first_listings_fresh_bind st st1 r :
  first_listings_fresh st (Ok st1) → first_listings_fresh st1 r →
  first_listings_fresh st r.
Proof.
  intros (n1 & E1 & H1) (n2 & E2 & H2). cbn in E1.
  exists (n1 ++ n2). split; [by rewrite E2, E1, app_assoc|].
  intros st' Hr ev p [Hin|Hin]%elem_of_app.
  - by apply (H1 st1).
  - by apply (H2 st').
Qed.

(** A pass that starts without a cache entry for its package reaches its
    end only if the tag listing is answered with 200. *)
Lemma process_package_Ok_fresh st p st' template :
  process_package net no_cache st p = Ok st' →
  GIT_PROVIDER_TO_TAGS_URL (git_provider p) = Some template →
  cache st !! pkg_id p = None →
  ∃ resp,
    (requests_get net (ListTags p) (template p)
       (conditional_headers (cache st !! pkg_id p)) st).1 = Some resp ∧
    status_code resp = 200.
Proof.
  intros (template' & resp & st0 & st1 & entry & tags & st2 & Hurl & Hget & H404 &
          Hupd & Hentry & Htags & Hloop & ->)%process_package_Ok Hurl' Hnone.
  assert (template' = template) as -> by congruence.
  rewrite Hget. exists resp. split; [done|].
  apply requests_get_inv in Hget as [-> _].
  unfold update_cache in Hupd.
  destruct (status_code resp =? 200) eqn:H200; [lia|].
  injection Hupd as <-. cbn in Hentry. congruence.
Qed.

Lemma process_package_fresh st p :
  first_listings_fresh st (process_package net no_cache st p).
Proof.
  destruct (process_package_trace net no_cache st p) as [Hnone|Hsome].
  { exists []. rewrite app_nil_r. split; [done|].
    intros st' _ ev q Hin. inversion Hin. }
  destruct Hsome as (template & resp & new & Hurl & Hresp & Ht & Hnew).
  eexists. split; [exact Ht|].
  intros st' Hok ev q [->|Hin]%elem_of_cons Hcall Hhdr.
  - cbn in Hhdr |- *. rewrite Hresp.
    apply (process_package_Ok_fresh st p st' template Hok Hurl).
    destruct (cache st !! pkg_id p) as [entry|]; [|done].
    cbn in Hhdr. apply (f_equal (λ m, m !! "If-None-Match")) in Hhdr.
    by rewrite lookup_singleton_eq, lookup_empty in Hhdr.
  - rewrite Forall_forall in Hnew. destruct (Hnew ev Hin) as [t Ht']. congruence.
Qed.

Lemma run_packages_fresh packages st :
  first_listings_fresh st (run_packages net no_cache packages st).
Proof.
  unfold run_packages. apply (for_each_result _ first_listings_fresh);
    [apply first_listings_fresh_ret|apply first_listings_fresh_bind
    |apply process_package_fresh].
Qed.

End FirstListings.

(** X13.  In a run that reaches the end of [main], every tag listing
    that was sent without a validation token, the cache having no entry
    for the package, was answered with status 200: without an entry any
    other answer ends the run before its end. *)
Theorem first_listing_is_fresh (net : network) (no_cache : bool)
    (packages : list package) (d : disk) (st' : state) (ev : event)
    (p : package) :
  (main net no_cache packages d).1 = Ok st' →
  ev ∈ trace st' →
  ev_call ev = ListTags p →
  req_headers (ev_request ev) = ∅ →
  ∃ resp, ev_response ev = Some resp ∧ status_code resp = 200.
Proof.
  intros Hok Hin Hcall Hhdr.
  destruct (main_trace net no_cache packages d)
    as [[_ (e & He)]|(st & Hst & Hnil & Hrun)].
  { unfold main in Hok. by rewrite He in Hok. }
  rewrite Hrun in Hok.
  destruct (run_packages_fresh net no_cache packages st) as (new & Ht & Hnew).
  rewrite Hok, Hnil in Ht. cbn in Ht. rewrite Ht in Hin.
  by apply (Hnew st' Hok ev p).
Qed.

Lemma first_listing_is_fresh_witness :
  ∃ resp,
    ev_response {| ev_call := ListTags demo;
                   ev_request := {| url := demo_tags_url; req_headers := ∅ |};
                   ev_response :=
                     Some (answer 200 {[ "ETag" := "abc" ]}
                             (Some (refs ["v1.0.0"; "main"; "v1.0.1"]))) |}
      = Some resp ∧
    status_code resp = 200.
Proof.
  apply (first_listing_is_fresh demo_provider false [demo] no_files
           (final first_run.1) _ demo).
  - vm_compute. reflexivity.
  - vm_compute. apply list_elem_of_here.
  - reflexivity.
  - reflexivity.
Defined.

(** ** A metadata fetch that fails *)

(** X14.  A metadata fetch answered with status 404, with any status
    other than 200, or with a document of length 0 costs one miss and
    nothing else: index, cache, cache file and hit counter stay as they
    are, and the loop goes on with the next tag. *)
Theorem skipped_tag_changes_nothing (net : network) (p : package)
    (st : state) (tag : string) (rest : list string) (r : package_record)
    (template : package → string → string → string) (resp : response) :
  is_valid_version tag = true →
  index st !! pkg_id p = Some r →
  versions r !! tag = None →
  GIT_PROVIDER_TO_RAW_URL (git_provider p) = Some template →
  supported_url (template p tag "metadata.json") = true →
  net (trace st) (metadata_request template p tag) = Some resp →
  skips resp = true →
  ∃ st1,
    process_tag net p st tag = Ok st1 ∧
    for_each (process_tag net p) (tag :: rest) st
      = for_each (process_tag net p) rest st1 ∧
    index st1 = index st ∧ cache st1 = cache st ∧
    cache_file st1 = cache_file st ∧ hits st1 = hits st ∧
    misses st1 = S (misses st) ∧
    ∃ ev, trace st1 = trace st ++ [ev] ∧ ev_call ev = FetchMetadata p tag ∧
          ev_response ev = Some resp.
Proof.
  intros Hvalid Hr Hnone Hurl Hsup Hnet Hskip.
  pose proof (process_tag_skipped net p st tag r template resp
                Hvalid Hr Hnone Hurl Hsup Hnet Hskip) as Hstep.
  eexists. split; [exact Hstep|]. cbn [for_each]. rewrite Hstep.
  split_and!; try done. by eexists.
Qed.

Lemma skipped_tag_changes_nothing_witness :
  ∃ st1,
    process_tag broken_provider demo at_header "v1.0.0" = Ok st1 ∧
    for_each (process_tag broken_provider demo) ["v1.0.0"; "v1.0.1"] at_header
      = for_each (process_tag broken_provider demo) ["v1.0.1"] st1 ∧
    index st1 = index at_header ∧ cache st1 = cache at_header ∧
    cache_file st1 = cache_file at_header ∧ hits st1 = hits at_header ∧
    misses st1 = S (misses at_header) ∧
    ∃ ev, trace st1 = trace at_header ++ [ev] ∧
          ev_call ev = FetchMetadata demo "v1.0.0" ∧
          ev_response ev = Some (answer 404 ∅ None).
Proof.
  apply (skipped_tag_changes_nothing broken_provider demo at_header "v1.0.0"
           ["v1.0.1"] (header_of demo)
           (λ p tag object,
              "https://raw.githubusercontent.com/" +:+ git_owner p +:+ "/"
              +:+ git_repository p +:+ "/" +:+ tag +:+ "/" +:+ object)
           (answer 404 ∅ None)).
  - reflexivity.
  - vm_compute. reflexivity.
  - reflexivity.
  - reflexivity.
  - reflexivity.
  - reflexivity.
  - reflexivity.
Defined.

(** ** Calls that end the run *)

Section Fatal.

Context (net : network).

Lemma ends_on_fatal_ret st : ends_on_fatal st (Ok st).
Proof.
  exists []. rewrite app_nil_r. split; [done|]. intros ev e Hin. inversion Hin.
Qed.

Lemma ends_on_fatal_bind st st1 r :
  ends_on_fatal st (Ok st1) → ends_on_fatal st1 r → ends_on_fatal st r.
Proof.
  intros (n1 & E1 & H1) (n2 & E2 & H2). cbn in E1.
  exists (n1 ++ n2). split; [by rewrite E2, E1, app_assoc|].
  intros ev e [Hin|Hin]%elem_of_app Hfatal.
  - destruct (H1 ev e Hin Hfatal) as [[st' [=]] _].
  - destruct (H2 ev e Hin Hfatal) as [Hr (before & ->)]. split; [done|].
    exists (n1 ++ before). by rewrite <- app_assoc.
Qed.

(** A step that makes no call. *)
Lemma ends_on_fatal_quiet st r :
  trace (final r) = trace st → ends_on_fatal st r.
Proof.
  intros Ht. exists []. rewrite app_nil_r. split; [done|].
  intros ev e Hin. inversion Hin.
Qed.

(** A step that makes one call, which is harmless or brings about the
    exception the step ends with. *)
Lemma ends_on_fatal_call st r ev :
  trace (final r) = trace st ++ [ev] →
  (∀ e, fatal ev = Some e → ∃ st', r = Raise e st') →
  ends_on_fatal st r.
Proof.
  intros Ht Hev. exists [ev]. split; [done|].
  intros ev' e ->%list_elem_of_singleton Hfatal.
  split; [by apply Hev|]. by exists [].
Qed.

Lemma record_version_trace p tag metadata st :
  trace (final (record_version p tag metadata st)) = trace st.
Proof. unfold record_version. repeat case_match; done. Qed.

Lemma process_tag_fatal p st tag :
  ends_on_fatal st (process_tag net p st tag).
Proof.
  unfold process_tag.
  destruct (negb (is_valid_version tag)); [by apply ends_on_fatal_quiet|].
  destruct (index st !! pkg_id p) as [r|]; [|by apply ends_on_fatal_quiet].
  case_bool_decide; [by apply ends_on_fatal_quiet|].
  destruct (GIT_PROVIDER_TO_RAW_URL (git_provider p)) as [template|];
    [|by apply ends_on_fatal_quiet].
  destruct (requests_get _ _ _ _ _) as [resp st1] eqn:Hget.
  apply requests_get_inv in Hget as [-> _].
  match goal with |- context [log_call ?e _] => set (ev := e) end.
  apply (ends_on_fatal_call _ _ ev).
  - destruct resp as [resp|]; [|done].
    destruct (status_code resp =? 404); [done|].
    destruct (metadata_of resp) as [metadata|]; [|done].
    destruct (py_len metadata) as [|[|len]]; [done|done|].
    by rewrite record_version_trace.
  - intros e. subst ev. unfold fatal, metadata_of. cbn.
    destruct resp as [resp|]; [|intros [= <-]; eauto].
    destruct (json_body resp) as [body|]; [done|].
    destruct (status_code resp =? 200) eqn:H200; [|done].
    intros [= <-]. assert ((status_code resp =? 404) = false) as -> by lia.
    eauto.
Qed.

Lemma tag_loop_fatal p tags st :
  ends_on_fatal st (for_each (process_tag net p) tags st).
Proof.
  revert tags st. apply (for_each_result _ ends_on_fatal);
    [apply ends_on_fatal_ret|apply ends_on_fatal_bind|apply process_tag_fatal].
Qed.

(** A harmless call followed by a piece that has the property. *)
Lemma ends_on_fatal_after st ev s r :
  trace s = trace st ++ [ev] →
  fatal ev = None →
  ends_on_fatal s r →
  ends_on_fatal st r.
Proof.
  intros Hs Hev (new & Ht & Hnew). exists (ev :: new).
  split; [by rewrite Ht, Hs, <- app_assoc|].
  intros ev' e [->|Hin]%elem_of_cons Hfatal; [congruence|].
  destruct (Hnew ev' e Hin Hfatal) as [Hr (before & ->)]. split; [done|].
  by exists (ev :: before).
Qed.

Lemma process_package_fatal no_cache st p :
  ends_on_fatal st (process_package net no_cache st p).
Proof.
  unfold process_package.
  destruct (GIT_PROVIDER_TO_TAGS_URL (git_provider p)) as [template|];
    [|by apply ends_on_fatal_quiet].
  destruct (requests_get _ _ _ _ _) as [resp st0] eqn:Hget.
  apply requests_get_inv in Hget as [-> _].
  match goal with |- context [log_call ?e _] => set (ev := e) end.
  destruct resp as [resp|];
    [|apply (ends_on_fatal_call _ _ ev); [done|]; intros e [= <-]; eauto].
  unfold quota_exhausted.
  destruct (status_code resp =? 401) eqn:H401.
  { (* status 401: the call is harmless, whatever the pass does next *)
    assert (fatal ev = None) as Hev.
    { subst ev. unfold fatal. cbn. destruct (json_body resp); [done|].
      by assert ((status_code resp =? 200) = false) as -> by lia. }
    clearbody ev.
    destruct (headers resp !! "X-RateLimit-Remaining") as [remaining|];
      [|by apply (ends_on_fatal_call _ _ ev); [|rewrite Hev]].
    cbn [py_eq]. destruct (status_code resp =? 404);
      [by apply (ends_on_fatal_call _ _ ev); [|rewrite Hev]|].
    unfold update_cache. assert ((status_code resp =? 200) = false) as -> by lia.
    cbn [and_then]. assert ((status_code resp =? 304) = false) as -> by lia.
    destruct (cache _ !! pkg_id p) as [entry|];
      [|by apply (ends_on_fatal_call _ _ ev); [|rewrite Hev]].
    destruct (tags_of_content (Content entry)) as [|tags];
      [by apply (ends_on_fatal_call _ _ ev); [|rewrite Hev]|].
    match goal with |- context [for_each ?body ?l ?start] =>
      pose proof (tag_loop_fatal p l start) as Hloop;
      apply (ends_on_fatal_after st ev start);
        [unfold add_header; by destruct (index _ !! pkg_id p)|done|];
      destruct (for_each body l start) as [st2| |]
    end; cbn [and_then]; try done.
    destruct Hloop as (new & Ht & Hnew). exists new. split; [done|].
    intros ev' e Hin Hfatal. destruct (Hnew ev' e Hin Hfatal) as [[? [=]] _]. }
  destruct (status_code resp =? 404) eqn:H404.
  { apply (ends_on_fatal_call _ _ ev); [done|]. subst ev. unfold fatal. cbn.
    destruct (json_body resp); [done|].
    by assert ((status_code resp =? 200) = false) as -> by lia. }
  unfold update_cache. destruct (status_code resp =? 200) eqn:H200.
  - destruct (headers resp !! "ETag") as [etag|] eqn:Hetag.
    2: { apply (ends_on_fatal_call _ _ ev); [done|]. subst ev. unfold fatal. cbn.
         rewrite H200, Hetag. by destruct (json_body resp). }
    destruct (json_body resp) as [content|] eqn:Hbody.
    2: { apply (ends_on_fatal_call _ _ ev); [done|]. subst ev. unfold fatal. cbn.
         rewrite H200, Hetag, Hbody. intros e [= <-]. eauto. }
    assert (fatal ev = None) as Hev.
    { subst ev. unfold fatal. cbn. by rewrite Hbody. }
    clearbody ev.
    cbn [and_then]. assert ((status_code resp =? 304) = false) as -> by lia.
    destruct (cache _ !! pkg_id p) as [entry|];
      [|apply (ends_on_fatal_call _ _ ev); [by destruct no_cache|by rewrite Hev]].
    destruct (tags_of_content (Content entry)) as [|tags];
      [apply (ends_on_fatal_call _ _ ev); [by destruct no_cache|by rewrite Hev]|].
    match goal with |- context [for_each ?body ?l ?start] =>
      pose proof (tag_loop_fatal p l start) as Hloop;
      apply (ends_on_fatal_after st ev start);
        [unfold add_header; destruct no_cache; by destruct (index _ !! pkg_id p)
        |done|];
      destruct (for_each body l start) as [st2| |]
    end; cbn [and_then]; try done.
    destruct Hloop as (new & Ht & Hnew). exists new. split; [done|].
    intros ev' e Hin Hfatal. destruct (Hnew ev' e Hin Hfatal) as [[? [=]] _].
  - assert (fatal ev = None) as Hev.
    { subst ev. unfold fatal. cbn. rewrite H200. by destruct (json_body resp). }
    clearbody ev.
    cbn [and_then].
    set (st1' := if status_code resp =? 304 then add_hit (log_call ev st)
                 else log_call ev st).
    assert (trace st1' = trace st ++ [ev] ∧ cache st1' = cache st
            ∧ index st1' = index st) as (Ht1 & Hc1 & Hi1).
    { subst st1'. by destruct (status_code resp =? 304). }
    destruct (cache st1' !! pkg_id p) as [entry|];
      [|by apply (ends_on_fatal_call _ _ ev); [|rewrite Hev]].
    destruct (tags_of_content (Content entry)) as [|tags];
      [by apply (ends_on_fatal_call _ _ ev); [|rewrite Hev]|].
    match goal with |- context [for_each ?body ?l ?start] =>
      pose proof (tag_loop_fatal p l start) as Hloop;
      apply (ends_on_fatal_after st ev start);
        [unfold add_header; by destruct (index _ !! pkg_id p)|done|];
      destruct (for_each body l start) as [st2| |]
    end; cbn [and_then]; try done.
    destruct Hloop as (new & Ht & Hnew). exists new. split; [done|].
    intros ev' e Hin Hfatal. destruct (Hnew ev' e Hin Hfatal) as [[? [=]] _].
Qed.

Lemma run_packages_fatal no_cache packages st :
  ends_on_fatal st (run_packages net no_cache packages st).
Proof.
  unfold run_packages. apply (for_each_result _ ends_on_fatal);
    [apply ends_on_fatal_ret|apply ends_on_fatal_bind
    |apply process_package_fatal].
Qed.

Lemma main_fatal no_cache packages d ev e :
  let run := main net no_cache packages d in
  ev ∈ trace (final run.1) →
  fatal ev = Some e →
  (∃ st', run.1 = Raise e st') ∧
  (∃ before, trace (final run.1) = before ++ [ev]) ∧
  index_json run.2 = index_json d.
Proof.
  cbv zeta. intros Hin Hfatal.
  destruct (main_trace net no_cache packages d)
    as [[Hnil _]|(st & Hst & Hnil & Hrun)].
  { rewrite Hnil in Hin. inversion Hin. }
  unfold main in *. rewrite Hst in *. cbn [fst snd] in *.
  destruct (run_packages_fatal no_cache packages st) as (new & Ht & Hnew).
  rewrite Ht, Hnil in Hin. cbn in Hin.
  destruct (Hnew ev e Hin Hfatal) as [[st' Hr] (before & ->)].
  split_and!; [eauto|exists before; by rewrite Ht, Hnil|].
  unfold disk_after. cbn [index_json]. by rewrite Hr.
Qed.

End Fatal.

(** X15.  A call of [requests.get] that gets no response (a timeout, a
    refused connection) ends the run with that exception: nothing is
    retried, the call is the last one, and the index file is left as it
    was. *)
Theorem call_without_response_ends_the_run (net : network) (no_cache : bool)
    (packages : list package) (d : disk) (ev : event) :
  let run := main net no_cache packages d in
  ev ∈ trace (final run.1) →
  ev_response ev = None →
  (∃ st', run.1 = Raise RequestException st') ∧
  (∃ before, trace (final run.1) = before ++ [ev]) ∧
  index_json run.2 = index_json d.
Proof.
  intros run Hin Hresp. apply main_fatal; [done|].
  unfold fatal. by rewrite Hresp.
Qed.

Lemma call_without_response_ends_the_run_witness :
  let run := main flaky_provider false [demo; other] no_files in
  (∃ st', run.1 = Raise RequestException st') ∧
  (∃ before, trace (final run.1) = before ++ [dropped_call]) ∧
  index_json run.2 = index_json no_files.
Proof.
  apply (call_without_response_ends_the_run flaky_provider false
           [demo; other] no_files dropped_call).
  - vm_compute. apply list_elem_of_further, list_elem_of_here.
  - reflexivity.
Defined.

(** X16.  A response with status 200 whose body does not decode, to a
    metadata call or to a tag listing that carries an [ETag], ends the
    run with [JSONDecodeError]: the call is the last one and the index
    file is left as it was. *)
Theorem undecodable_response_raises (net : network) (no_cache : bool)
    (packages : list package) (d : disk) (ev : event) (resp : response) :
  let run := main net no_cache packages d in
  ev ∈ trace (final run.1) →
  ev_response ev = Some resp →
  status_code resp = 200 →
  json_body resp = None →
  (∀ p, ev_call ev = ListTags p → is_Some (headers resp !! "ETag")) →
  (∃ st', run.1 = Raise JSONDecodeError st') ∧
  (∃ before, trace (final run.1) = before ++ [ev]) ∧
  index_json run.2 = index_json d.
Proof.
  intros run Hin Hresp H200 Hbody Hetag. apply main_fatal; [done|].
  unfold fatal. rewrite Hresp, Hbody, H200. cbn.
  destruct (ev_call ev) as [p|]; [|done].
  by destruct (Hetag p eq_refl) as [etag ->].
Qed.

Lemma undecodable_response_raises_witness :
  let run := main garbled_provider false [demo] no_files in
  (∃ st', run.1 = Raise JSONDecodeError st') ∧
  (∃ before, trace (final run.1) = before ++ [garbled_call]) ∧
  index_json run.2 = index_json no_files.
Proof.
  apply (undecodable_response_raises garbled_provider false [demo] no_files
           garbled_call (answer 200 ∅ None)).
  - vm_compute. apply list_elem_of_further, list_elem_of_here.
  - reflexivity.
  - reflexivity.
  - reflexivity.
  - discriminate.
Defined.

(** ** Runs with [--no-cache] *)

Section NoCache.

Context (net : network) (f : file (gmap string cache_entry)).

Lemma record_version_file p tag metadata st :
  record_version p tag metadata (with_cache_file f st)
  = map_result (with_cache_file f) (record_version p tag metadata st).
Proof.
  unfold record_version. cbn [index with_cache_file].
  repeat case_match; done.
Qed.

Lemma process_tag_file p st tag :
  process_tag net p (with_cache_file f st) tag
  = map_result (with_cache_file f) (process_tag net p st tag).
Proof.
  unfold process_tag, requests_get. cbn [index trace with_cache_file add_miss].
  destruct (negb (is_valid_version tag)); [done|].
  destruct (index st !! pkg_id p) as [r|]; [|done].
  case_bool_decide; [done|].
  destruct (GIT_PROVIDER_TO_RAW_URL (git_provider p)) as [template|]; [|done].
  destruct (if supported_url _ then _ else _) as [resp|]; [|done].
  destruct (status_code resp =? 404); [done|].
  destruct (metadata_of resp) as [metadata|]; [|done].
  destruct (py_len metadata) as [|[|len]]; [done|done|].
  apply (record_version_file p tag metadata (log_call _ (add_miss st))).
Qed.

Lemma for_each_file {A : Type} (body : state → A → result) :
  (∀ st x, body (with_cache_file f st) x
           = map_result (with_cache_file f) (body st x)) →
  ∀ l st, for_each body l (with_cache_file f st)
          = map_result (with_cache_file f) (for_each body l st).
Proof.
  intros Hbody l. induction l as [|x l IH]; intros st; [done|].
  cbn [for_each]. rewrite Hbody.
  destruct (body st x) as [st1| |]; cbn [map_result and_then]; [apply IH|done..].
Qed.

Lemma process_package_file p st :
  process_package net true (with_cache_file f st) p
  = map_result (with_cache_file f) (process_package net true st p).
Proof.
  unfold process_package, requests_get. cbn [cache trace with_cache_file].
  destruct (GIT_PROVIDER_TO_TAGS_URL (git_provider p)) as [template|]; [|done].
  destruct (if supported_url _ then _ else _) as [resp|]; [|done].
  destruct (quota_exhausted resp) as [e|[|]]; [done|done|].
  destruct (status_code resp =? 404); [done|].
  match goal with |- context [log_call ?e _] => generalize e; intros ev end.
  change (log_call ev (with_cache_file f st))
    with (with_cache_file f (log_call ev st)).
  generalize (log_call ev st). clear st. intros st.
  assert (update_cache true p resp (with_cache_file f st)
          = map_result (with_cache_file f) (update_cache true p resp st)) as ->.
  { unfold update_cache. repeat case_match; done. }
  destruct (update_cache true p resp st) as [st1| |];
    cbn [map_result and_then]; [|done..].
  set (st2 := if status_code resp =? 304 then add_hit st1 else st1).
  assert ((if status_code resp =? 304 then add_hit (with_cache_file f st1)
           else with_cache_file f st1) = with_cache_file f st2) as ->.
  { subst st2. by destruct (status_code resp =? 304). }
  clearbody st2. cbn [cache with_cache_file].
  destruct (cache st2 !! pkg_id p) as [entry|]; [|done].
  destruct (tags_of_content (Content entry)) as [e|tags]; [done|].
  assert (add_header p (with_cache_file f st2)
          = with_cache_file f (add_header p st2)) as ->.
  { unfold add_header. cbn [index with_cache_file]. by case_match. }
  rewrite (for_each_file _ (process_tag_file p)).
  by destruct (for_each _ tags _).
Qed.

Lemma run_packages_file packages st :
  run_packages net true packages (with_cache_file f st)
  = map_result (with_cache_file f) (run_packages net true packages st).
Proof. apply for_each_file. intros. apply process_package_file. Qed.

End NoCache.

(** X17.  With [--no-cache] the files that are there play no part: the
    cache file is neither read nor written, and for any two contents of
    the disk the run makes the same calls and ends the same way with the
    same index, cache and counters; when it reaches its end it writes
    the same index file, and otherwise it leaves the index file alone. *)
Theorem no_cache_run_ignores_the_files (net : network)
    (packages : list package) (d d' : disk) :
  let run := main net true packages d in
  let run' := main net true packages d' in
  cache_json run.2 = cache_json d ∧
  exit_code run.1 = exit_code run'.1 ∧
  trace (final run.1) = trace (final run'.1) ∧
  index (final run.1) = index (final run'.1) ∧
  cache (final run.1) = cache (final run'.1) ∧
  hits (final run.1) = hits (final run'.1) ∧
  misses (final run.1) = misses (final run'.1) ∧
  num_packages (final run.1) = num_packages (final run'.1) ∧
  match run.1 with
  | Ok st => index_json run.2 = Holds (index st)
             ∧ index_json run'.2 = Holds (index st)
  | _ => index_json run.2 = index_json d ∧ index_json run'.2 = index_json d'
  end.
Proof.
  cbv zeta. unfold main, initial_state. cbn [fst snd].
  change {| cache := ∅; index := ∅; hits := 0%nat; misses := 0%nat;
            num_packages := 0%nat; cache_file := cache_json d; trace := [] |}
    with (with_cache_file (cache_json d) (empty_state d')).
  change {| cache := ∅; index := ∅; hits := 0%nat; misses := 0%nat;
            num_packages := 0%nat; cache_file := cache_json d'; trace := [] |}
    with (empty_state d').
  rewrite run_packages_file. unfold disk_after. cbn [cache_json index_json].
  destruct (run_packages net true packages (empty_state d')) as [st|code st|e st];
    cbn; split_and!; try done.
Qed.
